(** * EnergyGrid data aggregator: the client pipeline of [client.js] and the
      signature check of [server.js], embedded and verified.

    The embedding follows the JavaScript source function by function:
    [generateSerialNumbers], [generateSignature], [fetchDeviceData],
    [fetchWithRetry], [createBatches], [aggregateDeviceData] (client.js) and
    [securityCheck] (server.js).  JavaScript numbers that the code uses as
    array indices, sizes, counters, status codes and millisecond amounts are
    integers well inside the exactly represented range, and are modelled in
    [Z] or [nat]. *)

From Stdlib Require Import String Ascii DecimalString DecimalNat.
From Stdlib Require Import ZArith Bool Lia Arith List PrimFloat Sorted.
From Equations Require Import Equations.
Import ListNotations.
Local Open Scope string_scope.
Local Open Scope list_scope.
Local Open Scope Z_scope.

Set Warnings "-register-all,-inexact-float".

(* ------------------------------------------------------------------ *)
(** ** JavaScript values and primitives used by the code *)

Module JS.

(** A JavaScript value as [JSON.parse] can deliver it, and [undefined].
    Numbers are IEEE doubles; a character of a string stands for one code
    point; an object lists each of its keys once. *)
Inductive value : Type :=
| Undefined
| Null
| Bool (b : bool)
| Num (d : float)
| Str (s : string)
| Arr (items : list value)
| Obj (fields : list (string * value)).

(** ToBoolean: [undefined], [null], [false], [0], [-0], [NaN] and the empty
    string are falsy; every array and object is truthy, the empty ones too. *)
Definition truthy (v : value) : bool :=
  match v with
  | Undefined | Null => false
  | Bool b => b
  | Num d => negb (PrimFloat.eqb d 0%float || PrimFloat.is_nan d)
  | Str s => negb (String.eqb s EmptyString)
  | Arr _ | Obj _ => true
  end.

Fixpoint lookup (key : string) (fields : list (string * value)) : value :=
  match fields with
  | [] => Undefined
  | (k, v) :: fields' => if String.eqb k key then v else lookup key fields'
  end.

(** The property read [v.data].  [None] is the TypeError of reading a
    property of [null] or [undefined]; an object answers with its field (or
    [undefined]), and a primitive or an array has no such property. *)
Definition dataOf (v : value) : option value :=
  match v with
  | Undefined | Null => None
  | Obj fields => Some (lookup "data" fields)
  | _ => Some Undefined
  end.

(** The elements the spread [...v] passes as arguments.  An array spreads
    to its items and a string to its characters, one code point each; any
    other value is not iterable ([None]: a TypeError). *)
Definition spread (v : value) : option (list value) :=
  match v with
  | Arr items => Some items
  | Str s => Some (map (fun c => Str (String c EmptyString)) (list_ascii_of_string s))
  | _ => None
  end.

(** [pad] repeated and cut to [n] characters, as [padStart] builds its
    filler; [cur] is what is left of the current copy. *)
Fixpoint filler (n : nat) (cur pad : string) : string :=
  match n with
  | O => EmptyString
  | S n' =>
      match cur with
      | String c cur' => String c (filler n' cur' pad)
      | EmptyString =>
          match pad with
          | String c pad' => String c (filler n' pad' pad)
          | EmptyString => EmptyString
          end
      end
  end.

(** [s.padStart(targetLength, padString)]. *)
Definition padStart (s : string) (targetLength : nat) (padString : string) : string :=
  let len := String.length s in
  if (targetLength <=? len)%nat || String.eqb padString EmptyString then s
  else (filler (targetLength - len) padString padString ++ s)%string.

(** [String(i)] for a non-negative integer, and [n.toString()] for an
    integer: the decimal rendering. *)
Definition String_of_nat (i : nat) : string := NilEmpty.string_of_uint (Nat.to_uint i).
Definition toString (n : Z) : string := NilZero.string_of_int (Z.to_int n).

(** [Array.prototype.slice]'s treatment of one relative index: a negative
    index counts from the end, and the result is clamped to [0, len]. *)
Definition relIndex (len k : Z) : Z :=
  if k <? 0 then Z.max (len + k) 0 else Z.min k len.

(** [array.slice(start, end)]: the elements from the clamped start up to,
    and excluding, the clamped end; empty when the end is not after the
    start. *)
Definition slice {A : Type} (array : list A) (start end_ : Z) : list A :=
  let len := Z.of_nat (length array) in
  let k := relIndex len start in
  let final := relIndex len end_ in
  firstn (Z.to_nat (final - k)) (skipn (Z.to_nat k) array).

(** The property read [v[key]] on a value of [JSON.parse]: as [dataOf], for
    any key of an object. *)
Definition prop (key : string) (v : value) : option value :=
  match v with
  | Undefined | Null => None
  | Obj fields => Some (lookup key fields)
  | _ => Some Undefined
  end.

End JS.

(* ------------------------------------------------------------------ *)
(** ** The Batcher: [createBatches] *)

(** The loop of [createBatches],
    [for (let i = 0; i < array.length; i += batchSize) batches.push(array.slice(i, i + batchSize))],
    from the state [(i, batches)].  Nothing in the source bounds the number
    of iterations, so the model counts evaluations of the loop condition in
    [fuel]; [None] means that the loop has not come to its end, and so has
    given no result, when the fuel is spent.  For a positive [batchSize] the
    loop ends within [array.length + 1] evaluations.  For a [batchSize] that
    is not positive and a non-empty array the index never passes the length
    and [batches] only grows; how the engine ends such a run (it cannot hold
    an array of 2^32 elements) is not modelled: there the model only says
    that no result is given. *)
Fixpoint createBatches_loop {A : Type} (fuel : nat) (array : list A)
    (batchSize : Z) (i : Z) (batches : list (list A)) : option (list (list A)) :=
  match fuel with
  | O => None
  | S fuel' =>
      if i <? Z.of_nat (length array)
      then createBatches_loop fuel' array batchSize (i + batchSize)
             (batches ++ [JS.slice array i (i + batchSize)])
      else Some batches
  end.

Definition createBatches {A : Type} (fuel : nat) (array : list A)
    (batchSize : Z) : option (list (list A)) :=
  createBatches_loop fuel array batchSize 0 [].

(** The length the claim gives to the last batch of a population of [n]
    elements cut in batches of [s]. *)
Definition lastBatchLength (n s : Z) : Z :=
  if n mod s =? 0 then s else n mod s.

(* ------------------------------------------------------------------ *)
(** ** Configuration and data of the client *)

Module CONFIG.
Definition API_URL : string := "/device/real/query".
Definition API_TOKEN : string := "interview_token_123".
Definition API_HOST : string := "localhost".
Definition API_PORT : Z := 3000.
Definition BATCH_SIZE : Z := 10.
Definition RATE_LIMIT_MS : Z := 1000.
Definition MAX_RETRIES : nat := 3.
Definition RETRY_DELAY_MS : Z := 2000.
End CONFIG.

(** The object a call of [fetchDeviceData] settles with,
    [{ success, data, error, statusCode }]; a field the object literal
    leaves out reads as [undefined] ([JS.Undefined], [None]). *)
Module Result.
Record t : Type := mk {
  success : bool;
  data : JS.value;
  error : option string;
  statusCode : Z
}.
End Result.

(** How the promise of [fetchDeviceData] settles. *)
Inductive Settled : Type :=
| Resolved (result : Result.t)
| Rejected (err : Result.t).

(** An entry of [errors]: [{ batch, serialNumbers, error, statusCode }]. *)
Module Failure.
Record t : Type := mk {
  batch : Z;
  serialNumbers : list string;
  error : option string;
  statusCode : Z
}.
End Failure.

(** The report of [aggregateDeviceData].  [elapsedMillis] is
    [endTime - startTime]; the source stores it as [executionTimeSeconds],
    divided by 1000 and rounded to two decimals, a formatting of floating
    point numbers that is left out. *)
Module Report.
Record t : Type := mk {
  success : bool;
  totalDevices : Z;
  fetchedDevices : nat;
  failedBatches : nat;
  elapsedMillis : Z;
  data : list JS.value;
  errors : list Failure.t
}.
End Report.

(** The request [fetchDeviceData] hands to [http.request]: the [options]
    and the body.  The body [JSON.stringify({ sn_list: snList })] is kept as
    the list it serialises, and the Content-Type and Content-Length headers,
    which follow from it, are left out. *)
Record Request : Type := mkRequest {
  hostname : string;
  port : Z;
  path : string;
  method : string;
  signature : string;
  timestamp : string;
  sn_list : list string
}.

(** What comes back: the ['error'] event of the request with its message,
    or a complete response with its status code and body. *)
Inductive Response : Type :=
| NetworkError (message : string)
| HttpResponse (statusCode : Z) (body : string).

(** What the run does to the outside, in order: requests sent and pauses
    taken.  Console output is not modelled. *)
Inductive Event : Type :=
| ERequest (req : Request)
| ESleep (ms : Z).

(** The outside of one run: what the [k]-th reading of [Date.now()] returns
    and how the [k]-th request is answered. *)
Record Env : Type := mkEnv {
  clock : nat -> Z;
  network : nat -> Request -> Response
}.

Record World : Type := mkWorld {
  clockReads : nat;
  requests : nat;
  trace : list Event
}.

(** How a computation ends: with a value, with a thrown TypeError, or not
    within the fuel of a loop that the source does not bound. *)
Inductive Completion (A : Type) : Type :=
| Returned (a : A)
| Thrown (message : string)
| Unfinished.
Arguments Returned {A} a.
Arguments Thrown {A} message.
Arguments Unfinished {A}.

Definition M (A : Type) : Type := World -> Completion A * World.

Definition ret {A : Type} (a : A) : M A := fun w => (Returned a, w).

Definition bind {A B : Type} (m : M A) (k : A -> M B) : M B :=
  fun w =>
    match m w with
    | (Returned a, w') => k a w'
    | (Thrown e, w') => (Thrown e, w')
    | (Unfinished, w') => (Unfinished, w')
    end.

Definition throw {A : Type} (message : string) : M A := fun w => (Thrown message, w).

Definition ofOption {A : Type} (o : option A) : M A :=
  fun w => match o with Some a => (Returned a, w) | None => (Unfinished, w) end.

Declare Scope js_scope.
Delimit Scope js_scope with js.
Notation "x <- m ;; k" := (bind m (fun x => k))
  (at level 61, m at next level, right associativity) : js_scope.
Notation "m ;;; k" := (bind m (fun _ => k))
  (at level 61, right associativity) : js_scope.
Local Open Scope js_scope.

(** What the mock endpoint of [server.js] draws from the platform:
    [Math.random()] (the [k]-th draw of the process),
    [Number.prototype.toFixed(2)], and [new Date().toISOString()] (the
    [k]-th date the handler takes). *)
Record Platform : Type := mkPlatform {
  Math_random : nat -> float;
  toFixed2 : float -> string;
  Date_toISOString : nat -> string
}.

(* ------------------------------------------------------------------ *)
(** ** The digest of the platform: MD5 *)

(** [crypto.createHash('md5').update(s).digest('hex')] is Node's, not the
    repository's.  The statements about the client and the server take the
    digest as a parameter; this module gives the function itself, after
    RFC 1321, for the statements about tokens and for concrete runs.  Words
    are numbers below 2^32; a string stands for the bytes of its text. *)
Module MD5.

Definition mask : Z := 4294967295.

Definition add32 (a b : Z) : Z := Z.land (a + b) mask.

Definition not32 (x : Z) : Z := Z.lxor x mask.

Definition rotl (x c : Z) : Z :=
  Z.lor (Z.land (Z.shiftl x c) mask) (Z.shiftr x (32 - c)).

(** [K[i] = floor(2^32 * abs(sin(i + 1)))]. *)
Definition K : list Z :=
  [3614090360; 3905402710; 606105819; 3250441966;
   4118548399; 1200080426; 2821735955; 4249261313;
   1770035416; 2336552879; 4294925233; 2304563134;
   1804603682; 4254626195; 2792965006; 1236535329;
   4129170786; 3225465664; 643717713; 3921069994;
   3593408605; 38016083; 3634488961; 3889429448;
   568446438; 3275163606; 4107603335; 1163531501;
   2850285829; 4243563512; 1735328473; 2368359562;
   4294588738; 2272392833; 1839030562; 4259657740;
   2763975236; 1272893353; 4139469664; 3200236656;
   681279174; 3936430074; 3572445317; 76029189;
   3654602809; 3873151461; 530742520; 3299628645;
   4096336452; 1126891415; 2878612391; 4237533241;
   1700485571; 2399980690; 4293915773; 2240044497;
   1873313359; 4264355552; 2734768916; 1309151649;
   4149444226; 3174756917; 718787259; 3951481745].

(** The rotation of each of the 64 steps. *)
Definition shifts : list Z :=
  [7; 12; 17; 22; 7; 12; 17; 22; 7; 12; 17; 22; 7; 12; 17; 22;
   5; 9; 14; 20; 5; 9; 14; 20; 5; 9; 14; 20; 5; 9; 14; 20;
   4; 11; 16; 23; 4; 11; 16; 23; 4; 11; 16; 23; 4; 11; 16; 23;
   6; 10; 15; 21; 6; 10; 15; 21; 6; 10; 15; 21; 6; 10; 15; 21].

Definition State : Type := (Z * Z * Z * Z)%type.

Definition initial : State := (1732584193, 4023233417, 2562383102, 271733878).

(** Step [i] on the block of 16 words [M]. *)
Definition step (M : list Z) (st : State) (i : nat) : State :=
  let '(a, b, c, d) := st in
  let f :=
    if (i <? 16)%nat then Z.lor (Z.land b c) (Z.land (not32 b) d)
    else if (i <? 32)%nat then Z.lor (Z.land d b) (Z.land (not32 d) c)
    else if (i <? 48)%nat then Z.lxor b (Z.lxor c d)
    else Z.lxor c (Z.lor b (not32 d)) in
  let g :=
    if (i <? 16)%nat then i
    else if (i <? 32)%nat then ((5 * i + 1) mod 16)%nat
    else if (i <? 48)%nat then ((3 * i + 5) mod 16)%nat
    else ((7 * i) mod 16)%nat in
  let f' := add32 (add32 (add32 f a) (nth i K 0)) (nth g M 0) in
  (d, add32 b (rotl f' (nth i shifts 0)), b, c).

Definition block (st : State) (M : list Z) : State :=
  let '(a0, b0, c0, d0) := st in
  let '(a, b, c, d) := fold_left (step M) (seq 0 64) st in
  (add32 a0 a, add32 b0 b, add32 c0 c, add32 d0 d).

(** The bytes of a number, lowest first. *)
Fixpoint littleEndian (n : nat) (x : Z) : list Z :=
  match n with
  | O => []
  | S n' => x mod 256 :: littleEndian n' (x / 256)
  end.

(** The message with its padding: the byte 128, zeros up to 56 modulo 64,
    and the length in bits on 8 bytes. *)
Definition padded (message : list Z) : list Z :=
  let len := length message in
  message ++ [128] ++ repeat 0 ((119 - len mod 64) mod 64)%nat
          ++ littleEndian 8 (8 * Z.of_nat len).

(** Four bytes, lowest first, as a word. *)
Definition word (bytes : list Z) : Z :=
  nth 0 bytes 0 + 256 * nth 1 bytes 0 + 65536 * nth 2 bytes 0 + 16777216 * nth 3 bytes 0.

(** The [k]-th block of 64 bytes, as 16 words. *)
Definition blockAt (bytes : list Z) (k : nat) : list Z :=
  map (fun j => word (firstn 4 (skipn (64 * k + 4 * j) bytes))) (seq 0 16).

Definition digest (message : list Z) : State :=
  let bytes := padded message in
  fold_left (fun st k => block st (blockAt bytes k)) (seq 0 (length bytes / 64)) initial.

Definition hexDigit (d : Z) : ascii :=
  nth (Z.to_nat d) (list_ascii_of_string "0123456789abcdef") "0"%char.

Definition hexByte (b : Z) : string :=
  String (hexDigit (b / 16)) (String (hexDigit (b mod 16)) EmptyString).

Definition hexWord (x : Z) : string :=
  (hexByte (x mod 256) ++ hexByte (x / 256 mod 256) ++
   hexByte (x / 65536 mod 256) ++ hexByte (x / 16777216 mod 256))%string.

Definition bytesOf (s : string) : list Z :=
  map (fun c => Z.of_nat (nat_of_ascii c)) (list_ascii_of_string s).

Definition md5_hex (s : string) : string :=
  let '(a, b, c, d) := digest (bytesOf s) in
  (hexWord a ++ hexWord b ++ hexWord c ++ hexWord d)%string.

End MD5.

(* ------------------------------------------------------------------ *)
(** ** A sample platform and sample environments, for concrete runs *)

Module Sample.

(** A stand-in for the digest: 32 hexadecimal digits, the same for every
    input. *)
Definition digest (s : string) : string := "d41d8cd98f00b204e9800998ecf8427e".

Definition quote : string := String (ascii_of_nat 34) EmptyString.

(** The body of a successful answer with one record: an object whose
    [data] field is the array [[true]]. *)
Definition okBody : string := ("{" ++ quote ++ "data" ++ quote ++ ":[true]}")%string.

(** The body of an answer whose [data] field is the number 7. *)
Definition oddBody : string := ("{" ++ quote ++ "data" ++ quote ++ ":7}")%string.

(** A parser that knows four bodies and rejects every other one. *)
Definition parse (body : string) : option JS.value :=
  if String.eqb body okBody then Some (JS.Obj [("data", JS.Arr [JS.Bool true])])
  else if String.eqb body oddBody then Some (JS.Obj [("data", JS.Num 7)])
  else if String.eqb body "{}" then Some (JS.Obj [])
  else if String.eqb body "null" then Some JS.Null
  else None.

Definition clock (k : nat) : Z := 1700000000000 + 1000 * Z.of_nat k.

Definition healthy : Env := mkEnv clock (fun _ _ => HttpResponse 200 okBody).
Definition rateLimited : Env := mkEnv clock (fun _ _ => HttpResponse 429 "Too Many Requests").
Definition serverError : Env := mkEnv clock (fun _ _ => HttpResponse 500 "Internal Server Error").
Definition garbled : Env := mkEnv clock (fun _ _ => HttpResponse 200 "<html>").
Definition odd : Env := mkEnv clock (fun _ _ => HttpResponse 200 oddBody).
Definition empty : Env := mkEnv clock (fun _ _ => HttpResponse 200 "{}").
Definition unreachable : Env := mkEnv clock (fun _ _ => NetworkError "connect ECONNREFUSED").

(** Two answers with status 429, then success. *)
Definition recovering : Env :=
  mkEnv clock (fun k _ => if (k <? 2)%nat then HttpResponse 429 "Too Many Requests"
                          else HttpResponse 200 okBody).

Definition start : World := mkWorld 0 0 [].

(** Stand-ins for what the mock endpoint draws from the platform: the
    random numbers 0.5, 0.05, 0.5, 0.05, ..., a rendering of a number with
    two decimals that knows the product 2.5, and dates a second apart. *)
Definition random (k : nat) : float :=
  if Nat.even k then 0.5%float else 0.05%float.

Definition toFixed2 (d : float) : string :=
  if PrimFloat.eqb d 2.5%float then "2.50" else "0.25".

Definition isoDate (k : nat) : string :=
  ("2024-01-01T00:00:0" ++ JS.String_of_nat k ++ ".000Z")%string.

Definition platform : Platform := mkPlatform random toFixed2 isoDate.

End Sample.

(* ------------------------------------------------------------------ *)
(** ** The client: [client.js] *)

Section EnergyGrid.

(** [crypto.createHash('md5').update(s).digest('hex')] and [JSON.parse]
    ([None]: it throws) belong to the platform, not to the repository. *)
Variable md5_hex : string -> string.
Variable JSON_parse : string -> option JS.value.
Variable env : Env.

Definition Date_now : M Z :=
  fun w => (Returned (clock env (clockReads w)),
            mkWorld (S (clockReads w)) (requests w) (trace w)).

Definition sleep (ms : Z) : M unit :=
  fun w => (Returned tt,
            mkWorld (clockReads w) (requests w) (trace w ++ [ESleep ms])).

(** [http.request(options, ...)] with the two listeners of
    [fetchDeviceData]: the request is handed to the network and what comes
    back is either the ['error'] event or a complete response.  The source
    sets no timeout, so a request that is never answered would leave the
    promise pending for ever; the model leaves such networks out: every
    request of [env] is answered. *)
Definition http_request (options : Request) : M Response :=
  fun w => (Returned (network env (requests w) options),
            mkWorld (clockReads w) (S (requests w)) (trace w ++ [ERequest options])).

Definition generateSerialNumbers : list string :=
  map (fun i => ("SN-" ++ JS.padStart (JS.String_of_nat i) 3 "0")%string) (seq 0 500).

Definition generateSignature (timestamp : string) : string :=
  let signatureString := (CONFIG.API_URL ++ CONFIG.API_TOKEN ++ timestamp)%string in
  md5_hex signatureString.

(** The handlers of [fetchDeviceData]: [res.on('end')] for a complete
    response and [req.on('error')] for a failed request. *)
Definition settle (res : Response) : Settled :=
  match res with
  | HttpResponse statusCode body =>
      if statusCode =? 200 then
        match JSON_parse body with
        | Some parsed =>
            match JS.dataOf parsed with
            | Some d => Resolved (Result.mk true d None statusCode)
            | None =>
                Rejected (Result.mk false JS.Undefined (Some "Failed to parse response") statusCode)
            end
        | None =>
            Rejected (Result.mk false JS.Undefined (Some "Failed to parse response") statusCode)
        end
      else Resolved (Result.mk false JS.Undefined (Some body) statusCode)
  | NetworkError message =>
      Rejected (Result.mk false JS.Undefined (Some message) 0)
  end.

Definition fetchDeviceData (snList : list string) (host : string) (port : Z) : M Settled :=
  now <- Date_now ;;
  let timestamp := JS.toString now in
  let signature := generateSignature timestamp in
  let options := mkRequest host port CONFIG.API_URL "POST" signature timestamp snList in
  res <- http_request options ;;
  ret (settle res).

(** [fetchWithRetry]: the [try] branch handles a resolved promise, the
    [catch] branch a rejected one.  The recursion ends because a retry
    needs [retryCount < MAX_RETRIES] and raises [retryCount]; the tests are
    written with [bool_dec] and [lt_dec] so that this is at hand where the
    function calls itself, and [fetchWithRetry_step] below restates them as
    the conjunction of the source. *)
Equations? fetchWithRetry (snList : list string) (host : string) (port : Z)
    (retryCount : nat) : M Result.t by wf (CONFIG.MAX_RETRIES - retryCount)%nat lt :=
  fetchWithRetry snList host port retryCount :=
    settled <- fetchDeviceData snList host port ;;
    match settled with
    | Resolved result =>
        match bool_dec (negb (Result.success result) && (Result.statusCode result =? 429)) true,
              lt_dec retryCount CONFIG.MAX_RETRIES with
        | left _, left Hlt =>
            sleep CONFIG.RETRY_DELAY_MS ;;;
            fetchWithRetry snList host port (retryCount + 1)
        | _, _ => ret result
        end
    | Rejected err =>
        match lt_dec retryCount CONFIG.MAX_RETRIES with
        | left Hlt =>
            sleep CONFIG.RETRY_DELAY_MS ;;;
            fetchWithRetry snList host port (retryCount + 1)
        | right _ => ret err
        end
    end.
Proof.
  all: change (CONFIG.MAX_RETRIES - (retryCount + 1) < CONFIG.MAX_RETRIES - retryCount)%nat;
    lia.
Qed.

(** The two accumulators of [aggregateDeviceData]. *)
Record Acc : Type := mkAcc {
  aggregatedData : list JS.value;
  errors : list Failure.t
}.

(** The [if]/[else] on the result of a batch: a truthy
    [result.success && result.data] spreads the data into [aggregatedData]
    (a TypeError when the data cannot be iterated); anything else pushes one
    descriptor on [errors]. *)
Definition collect (i : nat) (batch : list string) (result : Result.t) (acc : Acc) : M Acc :=
  if Result.success result && JS.truthy (Result.data result)
  then match JS.spread (Result.data result) with
       | Some items => ret (mkAcc (aggregatedData acc ++ items) (errors acc))
       | None => throw "result.data is not iterable"
       end
  else ret (mkAcc (aggregatedData acc)
              (errors acc ++
               [Failure.mk (Z.of_nat i + 1) batch
                  (Result.error result) (Result.statusCode result)])).

(** [if (i < batches.length - 1) await sleep(CONFIG.RATE_LIMIT_MS)]. *)
Definition spacing (batches : list (list string)) (i : nat) : M unit :=
  if Z.of_nat i <? Z.of_nat (length batches) - 1
  then sleep CONFIG.RATE_LIMIT_MS
  else ret tt.

(** One turn of the loop of [aggregateDeviceData], for the index [i].
    Reading [batches[i]] outside the array gives [undefined], whose
    [length] the first statement of the body cannot read. *)
Definition processBatch (batches : list (list string)) (host : string) (port : Z)
    (i : nat) (acc : Acc) : M Acc :=
  match nth_error batches i with
  | None => throw "batch is undefined"
  | Some batch =>
      result <- fetchWithRetry batch host port 0 ;;
      acc' <- collect i batch result acc ;;
      spacing batches i ;;;
      ret acc'
  end.

(** [for (let i = 0; i < batches.length; i++) body]: the body runs for the
    indices [0 .. batches.length - 1] in order, threading the accumulators. *)
Fixpoint forLoop (indices : list nat) (body : nat -> Acc -> M Acc) (acc : Acc) : M Acc :=
  match indices with
  | [] => ret acc
  | i :: indices' => acc' <- body i acc ;; forLoop indices' body acc'
  end.

(** [createBatches] is entered with fuel for one more test of its loop
    condition than the array has elements. *)
Definition aggregateDeviceData (host : string) (port : Z) : M Report.t :=
  startTime <- Date_now ;;
  let serialNumbers := generateSerialNumbers in
  batches <- ofOption (createBatches (S (length serialNumbers)) serialNumbers
                         CONFIG.BATCH_SIZE) ;;
  acc <- forLoop (seq 0 (length batches)) (processBatch batches host port)
           (mkAcc [] []) ;;
  endTime <- Date_now ;;
  ret (Report.mk true 500 (length (aggregatedData acc)) (length (errors acc))
         (endTime - startTime) (aggregatedData acc) (errors acc)).

(* ------------------------------------------------------------------ *)
(** ** The signature check of the server: [server.js] *)

Definition SECRET_TOKEN : string := "interview_token_123".

(** What [securityCheck] reads of a request: its headers and
    [req.originalUrl]. *)
Record Incoming : Type := mkIncoming {
  headers : list (string * string);
  originalUrl : string
}.

Fixpoint header (name : string) (hs : list (string * string)) : option string :=
  match hs with
  | [] => None
  | (k, v) :: hs' => if String.eqb k name then Some v else header name hs'
  end.

(** What a middleware does: calls [next()] or answers with a status and an
    error message. *)
Inductive Verdict : Type :=
| Next
| Respond (status : Z) (message : string).

(** [!h] for a header value: [undefined] and the empty string are falsy. *)
Definition missing (h : option string) : bool :=
  match h with
  | None => true
  | Some v => String.eqb v ""
  end.

Definition expectedSig (url timestamp : string) : string :=
  md5_hex (url ++ SECRET_TOKEN ++ timestamp)%string.

Definition securityCheck (req : Incoming) : Verdict :=
  let signature := header "signature" (headers req) in
  let timestamp := header "timestamp" (headers req) in
  let url := originalUrl req in
  if missing timestamp || missing signature
  then Respond 401 "Missing headers: signature or timestamp"
  else
    match signature, timestamp with
    | Some sig, Some ts =>
        if negb (String.eqb sig (expectedSig url ts))
        then Respond 401 "Invalid Signature"
        else Next
    | _, _ => Respond 401 "Missing headers: signature or timestamp"
    end.

(** A request of the client as the server reads it: the two headers the
    client set, and the request path as [originalUrl]. *)
Definition received (r : Request) : Incoming :=
  mkIncoming [("signature", signature r); ("timestamp", timestamp r)] (path r).

(* ------------------------------------------------------------------ *)
(** ** Notions the statements below are written with *)

(** The request [fetchDeviceData] sends when it starts in the world [w],
    and the world it leaves. *)
Definition issued (snList : list string) (host : string) (port : Z) (w : World) : Request :=
  let timestamp := JS.toString (clock env (clockReads w)) in
  mkRequest host port CONFIG.API_URL "POST" (generateSignature timestamp) timestamp snList.

Definition fetched (snList : list string) (host : string) (port : Z) (w : World) : World :=
  mkWorld (S (clockReads w)) (S (requests w))
    (trace w ++ [ERequest (issued snList host port w)]).

Definition slept (ms : Z) (w : World) : World :=
  mkWorld (clockReads w) (requests w) (trace w ++ [ESleep ms]).

(** The driver's test on a result, negated: the result goes to [errors]. *)
Definition failed (result : Result.t) : bool :=
  negb (Result.success result && JS.truthy (Result.data result)).

(** The records a result contributes to the report. *)
Definition records (result : Result.t) : list JS.value :=
  if failed result then []
  else match JS.spread (Result.data result) with
       | Some items => items
       | None => []
       end.

(** One turn of the driver's loop as the run went through it: the index,
    the batch sent and the result [fetchWithRetry] gave for it. *)
Record Visit : Type := mkVisit {
  index : nat;
  sent : list string;
  outcome : Result.t
}.

Definition descriptor (v : Visit) : Failure.t :=
  Failure.mk (Z.of_nat (index v) + 1) (sent v)
    (Result.error (outcome v)) (Result.statusCode (outcome v)).

(** [LoopRun batches host port indices w visits w']: the driver's loop,
    run over [indices] from the world [w], calls [fetchWithRetry] once per
    index, in order, with the results listed in [visits], and ends in [w']. *)
Inductive LoopRun (batches : list (list string)) (host : string) (port : Z) :
    list nat -> World -> list Visit -> World -> Prop :=
| LoopRun_done (w : World) : LoopRun batches host port [] w [] w
| LoopRun_turn (i : nat) (indices : list nat) (batch : list string)
    (result : Result.t) (w w1 w2 w' : World) (visits : list Visit) :
    nth_error batches i = Some batch ->
    fetchWithRetry batch host port 0 w = (Returned result, w1) ->
    spacing batches i w1 = (Returned tt, w2) ->
    LoopRun batches host port indices w2 visits w' ->
    LoopRun batches host port (i :: indices) w (mkVisit i batch result :: visits) w'.

(** The segments of a trace laid end to end with [sep] between each two. *)
Fixpoint joinWith {A : Type} (sep : A) (segments : list (list A)) : list A :=
  match segments with
  | [] => []
  | [seg] => seg
  | seg :: rest => seg ++ sep :: joinWith sep rest
  end.

(** The events of one dispatch of [batch]: between one and
    [MAX_RETRIES + 1] requests carrying the batch, with the retry delay
    between each two, and nothing else. *)
Definition Dispatch (batch : list string) (seg : list Event) : Prop :=
  exists reqs : list Request,
    reqs <> [] /\
    (length reqs <= S CONFIG.MAX_RETRIES)%nat /\
    Forall (fun r => sn_list r = batch) reqs /\
    seg = joinWith (ESleep CONFIG.RETRY_DELAY_MS) (map (fun r => [ERequest r]) reqs).

(** [Attempted snList n w w']: going from the world [w] to [w'] took
    between one and [n] requests carrying [snList], each reading the clock
    once, with the retry delay between each two, and nothing else. *)
Definition Attempted (snList : list string) (n : nat) (w w' : World) : Prop :=
  exists reqs : list Request,
    reqs <> [] /\
    (length reqs <= n)%nat /\
    Forall (fun r => sn_list r = snList) reqs /\
    trace w' = trace w ++
               joinWith (ESleep CONFIG.RETRY_DELAY_MS) (map (fun r => [ERequest r]) reqs) /\
    requests w' = (requests w + length reqs)%nat /\
    clockReads w' = (clockReads w + length reqs)%nat.

(** The object a settled promise carries, and the test of [fetchWithRetry]
    on it that leads to another attempt while retries are left: a resolved
    failure with status 429, or any rejection. *)
Definition payload (s : Settled) : Result.t :=
  match s with
  | Resolved result => result
  | Rejected err => err
  end.

Definition retryable (s : Settled) : bool :=
  match s with
  | Resolved result => negb (Result.success result) && (Result.statusCode result =? 429)
  | Rejected _ => true
  end.

(** The world after one reading of the clock. *)
Definition ticked (w : World) : World :=
  mkWorld (S (clockReads w)) (requests w) (trace w).

(** A token of [n] lower-case hexadecimal digits. *)
Definition hexDigits : list ascii := list_ascii_of_string "0123456789abcdef".

Definition isHexToken (n : nat) (s : string) : Prop :=
  String.length s = n /\ Forall (fun c => In c hexDigits) (list_ascii_of_string s).

Definition isHexTokenb (n : nat) (s : string) : bool :=
  (String.length s =? n)%nat &&
  forallb (fun c => existsb (Ascii.eqb c) hexDigits) (list_ascii_of_string s).


(* ------------------------------------------------------------------ *)
(** ** The mock endpoint and the trigger route: [server.js] *)

Definition MAX_BATCH_SIZE : Z := 10.

(** [rateLimiter], with [Date.now()] as [now] and the module variable
    [lastRequestTime] passed in and out. *)
Definition rateLimiter (now lastRequestTime : Z) : Verdict * Z :=
  if now - lastRequestTime <? 950
  then (Respond 429 "Too Many Requests. Limit: 1 req/sec.", lastRequestTime)
  else (Next, now).

(** [lastRequestTime] after the arrivals at the times [arrivals], and the
    verdict of the limiter on each of them. *)
Fixpoint rateLimited (arrivals : list Z) (lastRequestTime : Z) : list Verdict * Z :=
  match arrivals with
  | [] => ([], lastRequestTime)
  | now :: arrivals' =>
      let (verdict, last) := rateLimiter now lastRequestTime in
      let (verdicts, final) := rateLimited arrivals' last in
      (verdict :: verdicts, final)
  end.

(** What a handler answers: [res.status(status).json(json)]. *)
Record Reply : Type := mkReply {
  status : Z;
  json : JS.value
}.

Definition errorReply (status : Z) (message : string) : Reply :=
  mkReply status (JS.Obj [("error", JS.Str message)]).

(** What the process has drawn so far. *)
Record Drawn : Type := mkDrawn {
  randoms : nat;
  dates : nat
}.

(** The record the handler builds for one serial number: the first draw
    gives the power, the second the status. *)
Definition deviceRecord (p : Platform) (sn : JS.value) (d : Drawn) : JS.value :=
  JS.Obj
    [("sn", sn);
     ("power", JS.Str (toFixed2 p (PrimFloat.mul (Math_random p (randoms d)) 5%float) ++ " kW")%string);
     ("status", JS.Str (if PrimFloat.ltb 0.1%float (Math_random p (S (randoms d)))
                        then "Online" else "Offline"));
     ("last_updated", JS.Str (Date_toISOString p (dates d)))].

(** [sn_list.map(sn => ...)]: the elements in order, each taking two random
    draws and one date. *)
Fixpoint mapRecords (p : Platform) (sn_list : list JS.value) (d : Drawn) :
    list JS.value * Drawn :=
  match sn_list with
  | [] => ([], d)
  | sn :: sn_list' =>
      let (results, d') :=
        mapRecords p sn_list' (mkDrawn (2 + randoms d) (S (dates d))) in
      (deviceRecord p sn d :: results, d')
  end.

(** The handler of [POST /device/real/query] on the parsed body.  Taking
    [sn_list] out of a body that is [null] or [undefined] throws. *)
Definition queryHandler (p : Platform) (body : JS.value) (d : Drawn) :
    Completion Reply * Drawn :=
  match JS.prop "sn_list" body with
  | None => (Thrown "Cannot destructure property sn_list", d)
  | Some sn_list =>
      match sn_list with
      | JS.Arr items =>
          if Z.of_nat (length items) >? MAX_BATCH_SIZE
          then (Returned (errorReply 400 "Batch size limit exceeded (Max 10)"), d)
          else let (results, d') := mapRecords p items d in
               (Returned (mkReply 200 (JS.Obj [("data", JS.Arr results)])), d')
      | _ => (Returned (errorReply 400 "sn_list array is required"), d)
      end
  end.

(** The state of the server process between requests. *)
Record Server : Type := mkServer {
  lastRequestTime : Z;
  drawn : Drawn
}.

(** [app.post("/device/real/query", rateLimiter, securityCheck, handler)]
    on a request that has come to the route with the body [body]: the
    middlewares in order, each either answering or passing on.  What runs
    before the route, [app.use(express.json())], is in [postDeviceQuery]
    below. *)
Definition deviceQuery (p : Platform) (now : Z) (req : Incoming) (body : JS.value)
    (s : Server) :
    Completion Reply * Server :=
  match rateLimiter now (lastRequestTime s) with
  | (Respond st message, last) => (Returned (errorReply st message), mkServer last (drawn s))
  | (Next, last) =>
      match securityCheck req with
      | Respond st message => (Returned (errorReply st message), mkServer last (drawn s))
      | Next =>
          let (reply, d') := queryHandler p body (drawn s) in
          (reply, mkServer last d')
      end
  end.

(** What [app.use(express.json())] (the first middleware of the
    application) makes of a request before any route runs: it hands on the
    body it has parsed, or it passes an error on, which Express answers
    itself with the status of the error (400 for a body that is not the
    JSON text of an object or an array), and no middleware of the route
    runs.  The parser is Express's, so what it decides is given. *)
Inductive Parsed : Type :=
| BodyParsed (body : JS.value)
| BodyRejected (status : Z).

(** How a request to the route is answered: by a middleware or the handler,
    or by Express's error handler, with a status, when an error was passed
    on or thrown. *)
Inductive Answer : Type :=
| Replied (reply : Reply)
| Refused (status : Z).

(** [POST /device/real/query] as the application serves it: the body
    parser, then the route. *)
Definition postDeviceQuery (p : Platform) (now : Z) (req : Incoming) (parsed : Parsed)
    (s : Server) : Answer * Server :=
  match parsed with
  | BodyRejected st => (Refused st, s)
  | BodyParsed body =>
      match deviceQuery p now req body s with
      | (Returned reply, s') => (Replied reply, s')
      | (_, s') => (Refused 500, s')
      end
  end.

(** The body of a request of the client as [express.json()] hands it to
    the handler: the object [{ sn_list: [...] }] of the serial numbers. *)
Definition bodyOf (r : Request) : JS.value :=
  JS.Obj [("sn_list", JS.Arr (map JS.Str (sn_list r)))].

(** What [GET /aggregate] answers: the report under a message, or the
    status 500 when the run throws. *)
Inductive AggregateReply : Type :=
| AggregateDone (status : Z) (message : string) (result : Report.t)
| AggregateFailed (status : Z) (error details : string).

(** The handler of [GET /aggregate]: the run against [localhost] and the
    port of the server, inside [try]/[catch].  It answers when the run has
    ended, one way or the other. *)
Definition aggregateRoute (PORT : Z) : M AggregateReply :=
  fun w =>
    match aggregateDeviceData "localhost" PORT w with
    | (Returned result, w') =>
        (Returned (AggregateDone 200 "Data aggregation completed successfully" result), w')
    | (Thrown message, w') =>
        (Returned (AggregateFailed 500 "Aggregation failed" message), w')
    | (Unfinished, w') => (Unfinished, w')
    end.

(* ------------------------------------------------------------------ *)
(** ** More notions for the statements *)

(** The arrivals the limiter let through. *)
Fixpoint admitted (arrivals : list Z) (verdicts : list Verdict) : list Z :=
  match arrivals, verdicts with
  | now :: arrivals', Next :: verdicts' => now :: admitted arrivals' verdicts'
  | _ :: arrivals', _ :: verdicts' => admitted arrivals' verdicts'
  | _, _ => []
  end.

(** Each time is at least [gap] after the one before it, the first one
    after [prev]. *)
Fixpoint spaced (gap prev : Z) (times : list Z) : Prop :=
  match times with
  | [] => True
  | t :: times' => gap <= t - prev /\ spaced gap t times'
  end.

(** The request [fetchDeviceData] builds for [snList] from the [c]-th
    reading of the clock. *)
Definition requestAt (snList : list string) (host : string) (port : Z) (c : nat) : Request :=
  let timestamp := JS.toString (clock env c) in
  mkRequest host port CONFIG.API_URL "POST" (generateSignature timestamp) timestamp snList.

(** A record of the mock endpoint for the serial number [sn]: it carries
    the serial number, and its status is one of the two the handler knows. *)
Definition recordFor (sn record : JS.value) : Prop :=
  JS.prop "sn" record = Some sn /\
  (JS.prop "status" record = Some (JS.Str "Online") \/
   JS.prop "status" record = Some (JS.Str "Offline")) /\
  exists power date,
    JS.prop "power" record = Some (JS.Str (power ++ " kW")%string) /\
    JS.prop "last_updated" record = Some (JS.Str date).

(** [Dispatched snList host port n w w']: going from [w] to [w'] took [n]
    requests for [snList], each built from a reading of the clock of its
    own, the readings following one another, with the retry delay between
    each two, and nothing else. *)
Definition Dispatched (snList : list string) (host : string) (port : Z)
    (n : nat) (w w' : World) : Prop :=
  requests w' = (requests w + n)%nat /\
  clockReads w' = (clockReads w + n)%nat /\
  trace w' =
    trace w ++
    joinWith (ESleep CONFIG.RETRY_DELAY_MS)
      (map (fun c => [ERequest (requestAt snList host port c)]) (seq (clockReads w) n)).

(** An event of a run over [batches]: a request built by [requestAt] for
    one of the batches, or a pause. *)
Definition sentFor (batches : list (list string)) (host : string) (port : Z)
    (e : Event) : Prop :=
  match e with
  | ERequest r => exists batch c, In batch batches /\ r = requestAt batch host port c
  | ESleep ms => ms = CONFIG.RETRY_DELAY_MS \/ ms = CONFIG.RATE_LIMIT_MS
  end.

(** No string of the list occurs twice. *)
Fixpoint distinctb (l : list string) : bool :=
  match l with
  | [] => true
  | x :: l' => negb (existsb (String.eqb x) l') && distinctb l'
  end.

(* ================================================================== *)
(** * Theorems *)

(* ------------------------------------------------------------------ *)
(** ** The Batcher *)

Lemma slice_inside {A : Type} (array : list A) (i s : Z) :
  0 <= i -> 0 <= s ->
  JS.slice array i (i + s) = firstn (Z.to_nat s) (skipn (Z.to_nat i) array).
Proof.
  intros Hi Hs. unfold JS.slice, JS.relIndex.
  set (len := Z.of_nat (length array)).
  assert (Hlen : length array = Z.to_nat len) by (unfold len; lia).
  destruct (i <? 0) eqn:E1; [lia|]. destruct (i + s <? 0) eqn:E2; [lia|].
  apply Z.ltb_ge in E1, E2.
  destruct (Z.le_gt_cases len i) as [Hge | Hlt].
  - rewrite !skipn_all2 by lia. now rewrite !firstn_nil.
  - rewrite (Z.min_l i len) by lia.
    destruct (Z.le_gt_cases (i + s) len) as [Hin | Hout].
    + rewrite Z.min_l by lia. f_equal. lia.
    + rewrite Z.min_r by lia.
      rewrite !firstn_all2; trivial; rewrite length_skipn; lia.
Qed.

Lemma lastBatchLength_shift (n s : Z) :
  0 < s -> lastBatchLength (n - s) s = lastBatchLength n s.
Proof.
  intros Hs. unfold lastBatchLength.
  replace (n - s) with (n + (-1) * s) by lia.
  now rewrite Z.mod_add by lia.
Qed.

Lemma lastBatchLength_short (n s : Z) :
  0 < n <= s -> lastBatchLength n s = n.
Proof.
  intros Hn. unfold lastBatchLength.
  destruct (Z.eq_dec n s) as [-> | Hne].
  - rewrite Z.mod_same by lia. reflexivity.
  - rewrite Z.mod_small by lia.
    destruct (n =? 0) eqn:E; [apply Z.eqb_eq in E; lia | reflexivity].
Qed.

(** What the loop of [createBatches] adds from the index [i] on, for a
    positive batch size and enough fuel. *)
Lemma createBatches_loop_spec {A : Type} (array : list A) (s : Z) :
  0 < s ->
  forall (fuel : nat) (i : Z) (batches : list (list A)),
    0 <= i ->
    (Z.to_nat (Z.of_nat (length array) - i) < fuel)%nat ->
    exists bs,
      createBatches_loop fuel array s i batches = Some (batches ++ bs) /\
      concat bs = skipn (Z.to_nat i) array /\
      Forall (fun b => b <> []) bs /\
      (forall k b, nth_error bs k = Some b -> (S k < length bs)%nat ->
                   Z.of_nat (length b) = s) /\
      (forall b, nth_error bs (length bs - 1) = Some b ->
                 Z.of_nat (length b) = lastBatchLength (Z.of_nat (length array) - i) s).
Proof.
  intros Hs. induction fuel as [|fuel IH]; intros i batches Hi Hfuel; [lia|].
  simpl. destruct (i <? Z.of_nat (length array)) eqn:Hlt.
  - apply Z.ltb_lt in Hlt.
    destruct (IH (i + s) (batches ++ [JS.slice array i (i + s)])) as
      (bs & Hrun & Hcat & Hne & Hfull & Hlast); [lia | lia |].
    rewrite slice_inside in * by lia.
    set (b0 := firstn (Z.to_nat s) (skipn (Z.to_nat i) array)) in *.
    assert (Hb0 : Z.of_nat (length b0) = Z.min s (Z.of_nat (length array) - i)).
    { unfold b0. rewrite length_firstn, length_skipn. lia. }
    assert (Hempty : Z.of_nat (length array) <= i + s -> bs = []).
    { intros Hout. rewrite skipn_all2 in Hcat by lia.
      destruct bs as [|b bs]; trivial. inversion Hne as [|? ? Hb _]; subst.
      simpl in Hcat. apply app_eq_nil in Hcat. tauto. }
    exists (b0 :: bs). repeat split.
    + rewrite Hrun, <- app_assoc. reflexivity.
    + simpl. rewrite Hcat. unfold b0.
      replace (Z.to_nat (i + s)) with (Z.to_nat s + Z.to_nat i)%nat by lia.
      rewrite <- skipn_skipn. apply firstn_skipn.
    + constructor; trivial. intros E. rewrite E in Hb0. simpl in Hb0. lia.
    + intros [|k] b Hk Hlen; simpl in *.
      * injection Hk as <-.
        destruct (Z.le_gt_cases (Z.of_nat (length array)) (i + s)) as [Hout | Hin].
        -- rewrite (Hempty Hout) in Hlen. simpl in Hlen. lia.
        -- lia.
      * apply (Hfull k b Hk). lia.
    + intros b Hb. simpl in Hb. rewrite Nat.sub_0_r in Hb.
      destruct bs as [|b1 bs'].
      * simpl in Hb. injection Hb as <-.
        destruct (Z.le_gt_cases (Z.of_nat (length array)) (i + s)) as [Hout | Hin].
        -- rewrite lastBatchLength_short by lia. lia.
        -- exfalso. apply (f_equal (@length A)) in Hcat.
           rewrite length_skipn in Hcat. simpl in Hcat. lia.
      * rewrite <- lastBatchLength_shift by lia.
        replace (Z.of_nat (length array) - i - s)
          with (Z.of_nat (length array) - (i + s)) by lia.
        apply Hlast. simpl. rewrite Nat.sub_0_r. exact Hb.
  - apply Z.ltb_ge in Hlt. exists []. repeat split.
    + now rewrite app_nil_r.
    + rewrite skipn_all2 by lia. reflexivity.
    + constructor.
    + intros k b Hk. destruct k; discriminate.
    + intros b Hb. discriminate.
Qed.



(** C1. For every population and every positive batch size [s],
    [createBatches] returns (given fuel for its loop) batches whose
    concatenation in order is the population; every batch but the last has
    length [s]; the last batch has length [population.length mod s], or [s]
    when that is zero; and no batch is empty (an empty population gives no
    batch at all). *)
Theorem createBatches_partition {A : Type} (population : list A) (s : Z) (fuel : nat) :
  0 < s ->
  (length population < fuel)%nat ->
  exists batches,
    createBatches fuel population s = Some batches /\
    concat batches = population /\
    (forall k b, nth_error batches k = Some b -> (S k < length batches)%nat ->
                 Z.of_nat (length b) = s) /\
    (forall b, nth_error batches (length batches - 1) = Some b ->
               Z.of_nat (length b) = lastBatchLength (Z.of_nat (length population)) s) /\
    Forall (fun b => b <> []) batches.
Proof.
  intros Hs Hfuel.
  destruct (createBatches_loop_spec population s Hs fuel 0 [])
    as (bs & Hrun & Hcat & Hne & Hfull & Hlast); [lia | lia |].
  exists bs. unfold createBatches. rewrite Hrun. simpl in Hcat.
  rewrite Z.sub_0_r in Hlast. auto.
Qed.



(** Scenario A of the specification: 25 identifiers in batches of 10. *)
Example createBatches_25_by_10 :
  option_map (map (@length nat)) (createBatches 26 (seq 0 25) 10) = Some [10; 10; 5]%nat.
Proof. reflexivity. Qed.

(* ------------------------------------------------------------------ *)
(** ** The Transport Client and the Retry Policy *)

Lemma fetchDeviceData_run (snList : list string) (host : string) (port : Z) (w : World) :
  fetchDeviceData snList host port w =
  (Returned (settle (network env (requests w) (issued snList host port w))),
   fetched snList host port w).
Proof. reflexivity. Qed.

(** One call of [fetchWithRetry], with the conditions as the source writes
    them. *)
Lemma fetchWithRetry_step (snList : list string) (host : string) (port : Z)
    (retryCount : nat) (w : World) :
  fetchWithRetry snList host port retryCount w =
  match settle (network env (requests w) (issued snList host port w)) with
  | Resolved result =>
      if negb (Result.success result) && (Result.statusCode result =? 429)
         && (retryCount <? CONFIG.MAX_RETRIES)%nat
      then fetchWithRetry snList host port (retryCount + 1)
             (slept CONFIG.RETRY_DELAY_MS (fetched snList host port w))
      else (Returned result, fetched snList host port w)
  | Rejected err =>
      if (retryCount <? CONFIG.MAX_RETRIES)%nat
      then fetchWithRetry snList host port (retryCount + 1)
             (slept CONFIG.RETRY_DELAY_MS (fetched snList host port w))
      else (Returned err, fetched snList host port w)
  end.
Proof.
  rewrite fetchWithRetry_equation_1. unfold bind at 1.
  rewrite fetchDeviceData_run.
  destruct (settle _) as [result | err].
  - destruct (bool_dec _ true) as [Hc | Hc].
    + rewrite Hc. destruct (lt_dec retryCount CONFIG.MAX_RETRIES) as [Hlt | Hge].
      * apply Nat.ltb_lt in Hlt. rewrite Hlt. reflexivity.
      * apply Nat.ltb_nlt in Hge. rewrite Hge. reflexivity.
    + apply not_true_is_false in Hc. rewrite Hc. reflexivity.
  - destruct (lt_dec retryCount CONFIG.MAX_RETRIES) as [Hlt | Hge].
    + apply Nat.ltb_lt in Hlt. rewrite Hlt. reflexivity.
    + apply Nat.ltb_nlt in Hge. rewrite Hge. reflexivity.
Qed.

Lemma joinWith_cons {A : Type} (sep : A) (seg : list A) (rest : list (list A)) :
  rest <> [] -> joinWith sep (seg :: rest) = seg ++ sep :: joinWith sep rest.
Proof. destruct rest; [congruence | reflexivity]. Qed.

Lemma Attempted_once (snList : list string) (host : string) (port : Z)
    (n : nat) (w : World) :
  Attempted snList (S n) w (fetched snList host port w).
Proof.
  exists [issued snList host port w]. simpl.
  repeat split; try lia; try discriminate. repeat constructor.
Qed.

Lemma Attempted_again (snList : list string) (host : string) (port : Z)
    (n : nat) (w w' : World) :
  Attempted snList n (slept CONFIG.RETRY_DELAY_MS (fetched snList host port w)) w' ->
  Attempted snList (S n) w w'.
Proof.
  intros (reqs & Hne & Hlen & Hall & Htr & Hreq & Hclk).
  exists (issued snList host port w :: reqs).
  repeat split; try discriminate.
  - simpl. lia.
  - constructor; trivial.
  - rewrite Htr. simpl map. rewrite joinWith_cons.
    + simpl. rewrite <- !app_assoc. reflexivity.
    + destruct reqs; [congruence | discriminate].
  - rewrite Hreq. simpl. lia.
  - rewrite Hclk. simpl. lia.
Qed.

(** Every call of [fetchWithRetry] returns a result, after between one and
    [MAX_RETRIES - retryCount + 1] requests for the batch, separated by the
    retry delay. *)
Lemma fetchWithRetry_run (snList : list string) (host : string) (port : Z) :
  forall (m retryCount : nat) (w : World),
    (CONFIG.MAX_RETRIES - retryCount = m)%nat ->
    exists result w',
      fetchWithRetry snList host port retryCount w = (Returned result, w') /\
      Attempted snList (S m) w w'.
Proof.
  induction m as [|m IH]; intros retryCount w Hm; rewrite fetchWithRetry_step.
  - assert (Hge : (retryCount <? CONFIG.MAX_RETRIES)%nat = false)
      by (apply Nat.ltb_ge; lia).
    destruct (settle _) as [result | err]; rewrite Hge, ?andb_false_r;
      eauto using Attempted_once.
  - assert (Hnext : (CONFIG.MAX_RETRIES - (retryCount + 1) = m)%nat) by lia.
    assert (Hlt : (retryCount <? CONFIG.MAX_RETRIES)%nat = true)
      by (apply Nat.ltb_lt; lia).
    destruct (IH (retryCount + 1)%nat
                (slept CONFIG.RETRY_DELAY_MS (fetched snList host port w)) Hnext)
      as (result' & w' & Hrun & Hatt).
    apply Attempted_again in Hatt.
    destruct (settle _) as [result | err]; rewrite Hlt, ?andb_true_r; [|eauto].
    destruct (negb (Result.success result) && (Result.statusCode result =? 429));
      eauto using Attempted_once.
Qed.

(** An attempt that is not [retryable] ends the call: one request. *)
Lemma fetchWithRetry_stops (snList : list string) (host : string) (port : Z)
    (retryCount : nat) (w : World) :
  retryable (settle (network env (requests w) (issued snList host port w))) = false ->
  fetchWithRetry snList host port retryCount w =
  (Returned (payload (settle (network env (requests w) (issued snList host port w)))),
   fetched snList host port w).
Proof.
  intros Hstop. rewrite fetchWithRetry_step.
  destruct (settle _) as [result | err]; simpl in *; [|discriminate].
  rewrite Hstop. reflexivity.
Qed.

(** When every attempt is [retryable], the call makes all the attempts it
    may: [MAX_RETRIES - retryCount] retries after the first, and returns
    what the last attempt settled with. *)
Lemma fetchWithRetry_exhausts (snList : list string) (host : string) (port : Z) :
  (forall k req, retryable (settle (network env k req)) = true) ->
  forall (m retryCount : nat) (w : World),
    (retryCount <= CONFIG.MAX_RETRIES)%nat ->
    (CONFIG.MAX_RETRIES - retryCount = m)%nat ->
    exists wl,
      requests wl = (requests w + m)%nat /\
      fetchWithRetry snList host port retryCount w =
      (Returned (payload (settle (network env (requests wl) (issued snList host port wl)))),
       fetched snList host port wl).
Proof.
  intros Hretry. induction m as [|m IH]; intros retryCount w Hle Hm;
    rewrite fetchWithRetry_step.
  - exists w. split; [lia|].
    assert (Hge : (retryCount <? CONFIG.MAX_RETRIES)%nat = false)
      by (apply Nat.ltb_ge; lia).
    destruct (settle _) as [result | err]; rewrite Hge, ?andb_false_r; reflexivity.
  - assert (Hlt : (retryCount <? CONFIG.MAX_RETRIES)%nat = true)
      by (apply Nat.ltb_lt; lia).
    destruct (IH (retryCount + 1)%nat
                (slept CONFIG.RETRY_DELAY_MS (fetched snList host port w)))
      as (wl & Hreq & Hrun); [lia | lia |].
    exists wl. split; [simpl in Hreq; lia|].
    specialize (Hretry (requests w) (issued snList host port w)).
    destruct (settle _) as [result | err]; simpl in Hretry;
      rewrite ?Hretry, Hlt; exact Hrun.
Qed.

(** C2. [fetchWithRetry] returns after at least one and at most
    [MAX_RETRIES + 1 = 4] requests.  When every request is answered with
    status 429, it makes exactly 4 requests, and what it returns is the
    failure built from the answer to the last of them. *)
Theorem fetchWithRetry_attempt_bound (snList : list string) (host : string)
    (port : Z) (w : World) :
  CONFIG.MAX_RETRIES = 3%nat /\
  (exists result w',
      fetchWithRetry snList host port 0 w = (Returned result, w') /\
      (requests w < requests w' <= requests w + S CONFIG.MAX_RETRIES)%nat) /\
  ((forall k req, exists body, network env k req = HttpResponse 429 body) ->
   exists body req w',
     fetchWithRetry snList host port 0 w =
       (Returned (Result.mk false JS.Undefined (Some body) 429), w') /\
     requests w' = (requests w + S CONFIG.MAX_RETRIES)%nat /\
     last (trace w') (ESleep 0) = ERequest req /\
     network env (requests w + CONFIG.MAX_RETRIES) req = HttpResponse 429 body).
Proof.
  split; [reflexivity|]. split.
  - destruct (fetchWithRetry_run snList host port CONFIG.MAX_RETRIES 0 w eq_refl)
      as (result & w' & Hrun & reqs & Hne & Hlen & _ & _ & Hreq & _).
    exists result, w'. split; trivial.
    destruct reqs; [congruence|]. simpl in *. lia.
  - intros Hlimited.
    assert (Hretry : forall k req, retryable (settle (network env k req)) = true).
    { intros k req. destruct (Hlimited k req) as (body & ->). reflexivity. }
    destruct (fetchWithRetry_exhausts snList host port Hretry CONFIG.MAX_RETRIES 0 w
                (Nat.le_0_l _) eq_refl) as (wl & Hreq & Hrun).
    destruct (Hlimited (requests wl) (issued snList host port wl)) as (body & Hbody).
    rewrite Hbody in Hrun. simpl in Hrun.
    exists body, (issued snList host port wl), (fetched snList host port wl).
    repeat split; trivial.
    + simpl. lia.
    + simpl. apply last_last.
    + rewrite <- Hreq. exact Hbody.
Qed.

(** X19. A status other than 200 and 429 is returned at once, whatever
    [retryCount]: one request, no pause, and the result carries the body
    as error and that status. *)
Lemma fetchWithRetry_other_failure_once (snList : list string) (host : string)
    (port : Z) (retryCount : nat) (w : World) (status : Z) (body : string) :
  network env (requests w) (issued snList host port w) = HttpResponse status body ->
  status <> 200 -> status <> 429 ->
  fetchWithRetry snList host port retryCount w =
  (Returned (Result.mk false JS.Undefined (Some body) status), fetched snList host port w).
Proof.
  intros Hres H200 H429.
  rewrite fetchWithRetry_stops; rewrite Hres; simpl;
    destruct (Z.eqb_spec status 200); try contradiction; trivial.
  simpl. destruct (Z.eqb_spec status 429); try contradiction; trivial.
Qed.

(** C3, on the code.  A status 200 with a body that [JSON.parse] rejects
    makes [fetchDeviceData] reject its promise, and [fetchWithRetry] retries
    every rejection: when all answers are of this kind it makes
    [MAX_RETRIES + 1 = 4] requests, not one, before it returns the parse
    failure. *)
Theorem fetchWithRetry_parse_failure_retried (snList : list string) (host : string)
    (port : Z) (w : World) :
  (forall k req, exists body,
      network env k req = HttpResponse 200 body /\ JSON_parse body = None) ->
  exists w',
    fetchWithRetry snList host port 0 w =
      (Returned (Result.mk false JS.Undefined (Some "Failed to parse response") 200), w') /\
    requests w' = (requests w + 4)%nat.
Proof.
  intros Hbad.
  assert (Hsettle : forall k req,
            settle (network env k req) =
            Rejected (Result.mk false JS.Undefined (Some "Failed to parse response") 200)).
  { intros k req. destruct (Hbad k req) as (body & -> & Hparse).
    simpl. rewrite Hparse. reflexivity. }
  assert (Hretry : forall k req, retryable (settle (network env k req)) = true)
    by (intros; rewrite Hsettle; reflexivity).
  destruct (fetchWithRetry_exhausts snList host port Hretry CONFIG.MAX_RETRIES 0 w
              (Nat.le_0_l _) eq_refl) as (wl & Hreq & Hrun).
  rewrite Hsettle in Hrun. simpl in Hrun.
  exists (fetched snList host port wl). split; trivial.
  simpl. unfold CONFIG.MAX_RETRIES in Hreq. lia.
Qed.

(** What [fetchWithRetry] returns is what one of the attempts settled
    with. *)
Lemma fetchWithRetry_result (snList : list string) (host : string) (port : Z) :
  forall (m retryCount : nat) (w w' : World) (result : Result.t),
    (CONFIG.MAX_RETRIES - retryCount = m)%nat ->
    fetchWithRetry snList host port retryCount w = (Returned result, w') ->
    exists k req, result = payload (settle (network env k req)).
Proof.
  induction m as [|m IH]; intros retryCount w w' result Hm;
    rewrite fetchWithRetry_step;
    destruct (settle (network env (requests w) (issued snList host port w)))
      as [r | r] eqn:Hs;
    repeat match goal with
      | |- context [if ?c then _ else _] => destruct c eqn:?
      end;
    intros Hrun;
    try (injection Hrun as <- _; exists (requests w), (issued snList host port w);
         now rewrite Hs);
    try (apply IH in Hrun; [exact Hrun | lia]).
  all: exfalso; rewrite ?andb_true_iff in *;
    repeat match goal with H : _ /\ _ |- _ => destruct H end;
    match goal with H : (_ <? _)%nat = true |- _ => apply Nat.ltb_lt in H; lia end.
Qed.

(* ------------------------------------------------------------------ *)
(** ** The Aggregation Driver *)

Lemma fetchWithRetry_returns (snList : list string) (host : string) (port : Z) (w : World) :
  exists result w',
    fetchWithRetry snList host port 0 w = (Returned result, w') /\
    Attempted snList (S CONFIG.MAX_RETRIES) w w'.
Proof. exact (fetchWithRetry_run snList host port CONFIG.MAX_RETRIES 0 w eq_refl). Qed.

Lemma collect_failed (i : nat) (batch : list string) (result : Result.t) (acc : Acc) (w : World) :
  failed result = true ->
  collect i batch result acc w =
  (Returned (mkAcc (aggregatedData acc)
               (errors acc ++ [descriptor (mkVisit i batch result)])), w).
Proof.
  unfold failed, collect. intros H. apply negb_true_iff in H. rewrite H. reflexivity.
Qed.

Lemma collect_spread (i : nat) (batch : list string) (result : Result.t) (acc : Acc) (w : World) :
  failed result = false ->
  collect i batch result acc w =
  match JS.spread (Result.data result) with
  | Some items => (Returned (mkAcc (aggregatedData acc ++ items) (errors acc)), w)
  | None => (Thrown "result.data is not iterable", w)
  end.
Proof.
  unfold failed, collect. intros H. apply negb_false_iff in H. rewrite H.
  destruct (JS.spread _); reflexivity.
Qed.

Lemma spacing_run (batches : list (list string)) (i : nat) (w : World) :
  spacing batches i w =
  (Returned tt,
   if Z.of_nat i <? Z.of_nat (length batches) - 1
   then slept CONFIG.RATE_LIMIT_MS w else w).
Proof. unfold spacing. destruct (_ <? _); reflexivity. Qed.

(** One turn of the loop, once the batch and the result of its dispatch
    are known. *)
Lemma processBatch_run (batches : list (list string)) (host : string) (port : Z)
    (i : nat) (batch : list string) (acc : Acc) (w w1 : World) (result : Result.t) :
  nth_error batches i = Some batch ->
  fetchWithRetry batch host port 0 w = (Returned result, w1) ->
  processBatch batches host port i acc w =
  match collect i batch result acc w1 with
  | (Returned acc', w2) => (Returned acc', snd (spacing batches i w2))
  | (Thrown e, w2) => (Thrown e, w2)
  | (Unfinished, w2) => (Unfinished, w2)
  end.
Proof.
  intros Hnth Hrun. unfold processBatch. rewrite Hnth.
  unfold bind at 1. rewrite Hrun. unfold bind at 1.
  destruct (collect i batch result acc w1) as [[acc' | e |] w2]; trivial.
  unfold bind. rewrite spacing_run. reflexivity.
Qed.

(** A loop that returns has gone through every index, and its accumulators
    are what the results of the dispatches put in them, in order. *)
Lemma forLoop_returned (batches : list (list string)) (host : string) (port : Z) :
  forall (indices : list nat) (acc acc' : Acc) (w w' : World),
    forLoop indices (processBatch batches host port) acc w = (Returned acc', w') ->
    exists visits,
      LoopRun batches host port indices w visits w' /\
      aggregatedData acc' =
        aggregatedData acc ++ concat (map (fun v => records (outcome v)) visits) /\
      errors acc' =
        errors acc ++ map descriptor (filter (fun v => failed (outcome v)) visits).
Proof.
  induction indices as [|i indices IH]; intros acc acc' w w' Hloop.
  - injection Hloop as <- <-. exists []. simpl. rewrite !app_nil_r.
    repeat split. constructor.
  - simpl in Hloop. unfold bind at 1 in Hloop.
    destruct (nth_error batches i) as [batch|] eqn:Hnth;
      [|unfold processBatch in Hloop; rewrite Hnth in Hloop; discriminate].
    destruct (fetchWithRetry_returns batch host port w) as (result & w1 & Hrun & _).
    rewrite (processBatch_run batches host port i batch acc w w1 result Hnth Hrun) in Hloop.
    pose proof (spacing_run batches i w1) as Hsp.
    destruct (failed result) eqn:Hf.
    + rewrite collect_failed in Hloop by exact Hf.
      rewrite Hsp in Hloop. simpl fst in Hloop. simpl snd in Hloop.
      destruct (IH _ _ _ _ Hloop) as (visits & Hvis & Hdata & Herr).
      exists (mkVisit i batch result :: visits). repeat split.
      * econstructor; eauto.
      * rewrite Hdata. simpl. unfold records at 2. rewrite Hf. reflexivity.
      * rewrite Herr. simpl. rewrite Hf. simpl. rewrite <- app_assoc. reflexivity.
    + rewrite collect_spread in Hloop by exact Hf.
      destruct (JS.spread (Result.data result)) as [items|] eqn:Hspread; [|discriminate].
      rewrite Hsp in Hloop. simpl fst in Hloop. simpl snd in Hloop.
      destruct (IH _ _ _ _ Hloop) as (visits & Hvis & Hdata & Herr).
      exists (mkVisit i batch result :: visits). repeat split.
      * econstructor; eauto.
      * rewrite Hdata. simpl. unfold records at 2. rewrite Hf, Hspread.
        rewrite <- app_assoc. reflexivity.
      * rewrite Herr. simpl. rewrite Hf. reflexivity.
Qed.

(** The visits of a loop run name the batches at their indices. *)
Lemma LoopRun_visits {batches : list (list string)} {host : string} {port : Z}
    {indices : list nat} {w w' : World} {visits : list Visit} :
    LoopRun batches host port indices w visits w' ->
    map index visits = indices /\
    Forall (fun v => nth_error batches (index v) = Some (sent v)) visits.
Proof.
  induction 1 as [| i indices batch result w w1 w2 w' visits Hnth Hrun Hsp Hloop [IHi IHf]].
  - split; constructor.
  - split; [simpl; now rewrite IHi | constructor; trivial].
Qed.

Lemma skipn_nth_error {A : Type} (l : list A) :
  forall (i : nat) (x : A), nth_error l i = Some x -> skipn i l = x :: skipn (S i) l.
Proof.
  induction l as [|a l IH]; intros [|i] x H; try discriminate.
  - injection H as ->. reflexivity.
  - simpl in H. apply IH in H. exact H.
Qed.


(** The batches of the run exist, and the run is the loop over them between
    two readings of the clock. *)
Lemma aggregateDeviceData_run (host : string) (port : Z) (w : World) :
  exists batches,
    createBatches (S (length generateSerialNumbers)) generateSerialNumbers
      CONFIG.BATCH_SIZE = Some batches /\
    concat batches = generateSerialNumbers /\
    aggregateDeviceData host port w =
    match forLoop (seq 0 (length batches)) (processBatch batches host port)
            (mkAcc [] []) (ticked w) with
    | (Returned acc, w1) =>
        (Returned (Report.mk true 500 (length (aggregatedData acc)) (length (errors acc))
                     (clock env (clockReads w1) - clock env (clockReads w))
                     (aggregatedData acc) (errors acc)),
         ticked w1)
    | (Thrown e, w1) => (Thrown e, w1)
    | (Unfinished, w1) => (Unfinished, w1)
    end.
Proof.
  destruct (createBatches_loop_spec generateSerialNumbers CONFIG.BATCH_SIZE eq_refl
              (S (length generateSerialNumbers)) 0 []) as (batches & Hb & Hcat & _);
    [lia | lia |].
  exists batches. repeat split; trivial.
  unfold aggregateDeviceData, bind at 1, Date_now at 1. cbv zeta.
  unfold bind at 1, ofOption, createBatches. rewrite Hb. unfold bind at 1.
  fold (ticked w). simpl app.
  destruct (forLoop _ _ _ _) as [[acc | e |] w1]; reflexivity.
Qed.


(** When no attempt succeeds, every turn of the loop records a failure and
    the loop returns with as many new descriptors as indices, and no
    record. *)
Lemma forLoop_all_failed (batches : list (list string)) (host : string) (port : Z) :
  (forall k req, Result.success (payload (settle (network env k req))) = false) ->
  forall (indices : list nat) (acc : Acc) (w : World),
    Forall (fun i => (i < length batches)%nat) indices ->
    exists acc' w',
      forLoop indices (processBatch batches host port) acc w = (Returned acc', w') /\
      aggregatedData acc' = aggregatedData acc /\
      length (errors acc') = (length (errors acc) + length indices)%nat.
Proof.
  intros Hdown. induction indices as [|i indices IH]; intros acc w Hvalid.
  - exists acc, w. simpl. repeat split. lia.
  - inversion Hvalid as [|? ? Hi Hrest]; subst.
    destruct (nth_error batches i) as [batch|] eqn:Hnth;
      [|apply nth_error_None in Hnth; lia].
    destruct (fetchWithRetry_returns batch host port w) as (result & w1 & Hrun & _).
    assert (Hf : failed result = true).
    { destruct (fetchWithRetry_result batch host port CONFIG.MAX_RETRIES 0 w w1 result eq_refl Hrun)
        as (k & req & ->).
      unfold failed. now rewrite Hdown. }
    simpl. unfold bind at 1.
    rewrite (processBatch_run batches host port i batch acc w w1 result Hnth Hrun).
    rewrite collect_failed by exact Hf.
    destruct (IH (mkAcc (aggregatedData acc)
                    (errors acc ++ [descriptor (mkVisit i batch result)]))
                (snd (spacing batches i w1)) Hrest)
      as (acc' & w' & Hloop & Hdata & Herr).
    exists acc', w'. repeat split; trivial.
    rewrite Herr. simpl. rewrite length_app. simpl. lia.
Qed.

(** C10. Every report that [aggregateDeviceData] returns has [success]
    set to [true]; and when no attempt of the run succeeds, a report is
    returned all the same, with [success] true, no record, and all 50
    batches counted as failed. *)
Theorem report_success_always_true (host : string) (port : Z) (w : World) :
  (forall report w',
      aggregateDeviceData host port w = (Returned report, w') ->
      Report.success report = true) /\
  ((forall k req, Result.success (payload (settle (network env k req))) = false) ->
   exists report w',
     aggregateDeviceData host port w = (Returned report, w') /\
     Report.success report = true /\
     Report.fetchedDevices report = 0%nat /\
     Report.data report = [] /\
     Report.failedBatches report = 50%nat).
Proof.
  destruct (aggregateDeviceData_run host port w) as (batches & Hb & Hcat & Heq).
  split.
  - intros report w' Hrun. rewrite Heq in Hrun.
    destruct (forLoop _ _ _ _) as [[acc | e |] w1]; try discriminate.
    injection Hrun as <- _. reflexivity.
  - intros Hdown.
    assert (Hn : length batches = 50%nat).
    { vm_compute in Hb. injection Hb as <-. reflexivity. }
    destruct (forLoop_all_failed batches host port Hdown
                (seq 0 (length batches)) (mkAcc [] []) (ticked w))
      as (acc & w1 & Hloop & Hdata & Herr).
    { apply Forall_forall. intros i Hi. apply in_seq in Hi. lia. }
    rewrite Hloop in Heq. rewrite Heq.
    eexists. eexists. split; [reflexivity|]. simpl in *.
    rewrite Hdata, Herr, length_seq, Hn. repeat split.
Qed.

Lemma Attempted_dispatch {batch : list string} {w w' : World} :
  Attempted batch (S CONFIG.MAX_RETRIES) w w' ->
  exists seg, Dispatch batch seg /\ trace w' = trace w ++ seg.
Proof.
  intros (reqs & Hne & Hlen & Hall & Htr & _).
  eexists. split; [exists reqs; repeat split; eauto | exact Htr].
Qed.

(** The events of one dispatch are requests and retry delays only: the
    inter-batch pause is none of them, and a dispatch starts and ends with a
    request. *)
Lemma Dispatch_events {batch : list string} {seg : list Event} :
  Dispatch batch seg ->
  ~ In (ESleep CONFIG.RATE_LIMIT_MS) seg /\
  (exists req rest, seg = ERequest req :: rest) /\
  (exists req front, seg = front ++ [ERequest req]).
Proof.
  intros (reqs & Hne & _ & _ & ->). clear batch.
  induction reqs as [|r reqs IH]; [congruence|].
  destruct reqs as [|r' reqs].
  - simpl. repeat split.
    + intros [H | []]. discriminate.
    + now exists r, [].
    + now exists r, [].
  - destruct IH as (Hno & _ & (rl & front & Hlast)); [discriminate|].
    change (map (fun r0 => [ERequest r0]) (r :: r' :: reqs))
      with ([ERequest r] :: map (fun r0 => [ERequest r0]) (r' :: reqs)).
    rewrite joinWith_cons by discriminate. repeat split.
    + simpl app. intros [H | [H | H]]; try discriminate. now apply Hno.
    + eexists. eexists. reflexivity.
    + exists rl, (ERequest r :: ESleep CONFIG.RETRY_DELAY_MS :: front).
      rewrite Hlast. reflexivity.
Qed.

(** The trace of the loop from the index [i0] to the end of [batches]: one
    dispatch per batch reached, with the inter-batch pause between each two
    and none after the last. *)
Lemma forLoop_trace (batches : list (list string)) (host : string) (port : Z) :
  forall (k i0 : nat) (acc : Acc) (w : World),
    (i0 + k = length batches)%nat ->
    exists segments,
      trace (snd (forLoop (seq i0 k) (processBatch batches host port) acc w)) =
        trace w ++ joinWith (ESleep CONFIG.RATE_LIMIT_MS) segments /\
      Forall2 Dispatch (firstn (length segments) (skipn i0 batches)) segments /\
      (length segments <= k)%nat /\
      ((0 < k)%nat -> segments <> []) /\
      ((exists acc', fst (forLoop (seq i0 k) (processBatch batches host port) acc w)
                     = Returned acc') ->
       length segments = k).
Proof.
  induction k as [|k IH]; intros i0 acc w Hk.
  - exists []. simpl. rewrite app_nil_r. repeat split; trivial; lia.
  - destruct (nth_error batches i0) as [batch|] eqn:Hnth;
      [|apply nth_error_None in Hnth; lia].
    destruct (fetchWithRetry_returns batch host port w) as (result & w1 & Hrun & Hatt).
    destruct (Attempted_dispatch Hatt) as (seg & Hseg & Htr).
    pose proof (skipn_nth_error batches _ _ Hnth) as Hskip.
    assert (Hstep :
      forLoop (seq i0 (S k)) (processBatch batches host port) acc w =
      match collect i0 batch result acc w1 with
      | (Returned acc1, w2) =>
          forLoop (seq (S i0) k) (processBatch batches host port) acc1
            (snd (spacing batches i0 w2))
      | (Thrown e, w2) => (Thrown e, w2)
      | (Unfinished, w2) => (Unfinished, w2)
      end).
    { simpl. unfold bind at 1.
      rewrite (processBatch_run batches host port i0 batch acc w w1 result Hnth Hrun).
      destruct (collect i0 batch result acc w1) as [[acc1 | e |] w2]; reflexivity. }
    rewrite Hstep. clear Hstep.
    assert (Hthrown : forall e,
      exists segments,
        trace (snd (@Thrown Acc e, w1)) =
          trace w ++ joinWith (ESleep CONFIG.RATE_LIMIT_MS) segments /\
        Forall2 Dispatch (firstn (length segments) (skipn i0 batches)) segments /\
        (length segments <= S k)%nat /\
        ((0 < S k)%nat -> segments <> []) /\
        ((exists acc', fst (@Thrown Acc e, w1) = Returned acc') ->
         length segments = S k)).
    { intros e. exists [seg]. simpl. rewrite Hskip. repeat split; trivial.
      - repeat constructor; trivial.
      - lia.
      - discriminate.
      - intros (acc' & H). discriminate. }
    assert (Hgoes : forall acc1,
      exists segments,
        trace (snd (forLoop (seq (S i0) k) (processBatch batches host port) acc1
                      (snd (spacing batches i0 w1)))) =
          trace w ++ joinWith (ESleep CONFIG.RATE_LIMIT_MS) segments /\
        Forall2 Dispatch (firstn (length segments) (skipn i0 batches)) segments /\
        (length segments <= S k)%nat /\
        ((0 < S k)%nat -> segments <> []) /\
        ((exists acc', fst (forLoop (seq (S i0) k) (processBatch batches host port) acc1
                              (snd (spacing batches i0 w1))) = Returned acc') ->
         length segments = S k)).
    { intros acc1.
      destruct (IH (S i0) acc1 (snd (spacing batches i0 w1)))
        as (segments & Htrace & Hall & Hle & Hne & Hret); [lia|].
      exists (seg :: segments). rewrite spacing_run in *. simpl snd in *.
      rewrite Hskip. simpl firstn. repeat split.
      - rewrite Htrace. destruct k as [|k].
        + assert (segments = []) by (destruct segments; simpl in Hle; [trivial | lia]).
          subst segments. simpl.
          destruct (Z.ltb_spec (Z.of_nat i0) (Z.of_nat (length batches) - 1)); [lia|].
          now rewrite Htr, app_nil_r.
        + rewrite joinWith_cons by (apply Hne; lia).
          destruct (Z.ltb_spec (Z.of_nat i0) (Z.of_nat (length batches) - 1)); [|lia].
          simpl. rewrite Htr, <- !app_assoc. reflexivity.
      - constructor; trivial.
      - simpl. lia.
      - discriminate.
      - intros Hr. simpl. f_equal. apply Hret, Hr. }
    destruct (failed result) eqn:Hf.
    + rewrite collect_failed by exact Hf. apply Hgoes.
    + rewrite collect_spread by exact Hf.
      destruct (JS.spread (Result.data result)); [apply Hgoes | apply Hthrown].
Qed.

(** C9. The requests and pauses of a run of [aggregateDeviceData] are the
    dispatches of its batches, in order, with the pause of
    [RATE_LIMIT_MS = 1000] between each two consecutive dispatches and no
    pause after the last one.  A dispatch holds only requests for its batch
    and retry delays, whatever its result, so two dispatches are never
    adjacent.  A run that returns a report has dispatched every batch. *)
Theorem spacing_between_dispatches (host : string) (port : Z) (w : World) :
  exists batches segments,
    CONFIG.RATE_LIMIT_MS = 1000 /\
    createBatches (S (length generateSerialNumbers)) generateSerialNumbers
      CONFIG.BATCH_SIZE = Some batches /\
    trace (snd (aggregateDeviceData host port w)) =
      trace w ++ joinWith (ESleep CONFIG.RATE_LIMIT_MS) segments /\
    Forall2 Dispatch (firstn (length segments) batches) segments /\
    Forall (fun seg => ~ In (ESleep CONFIG.RATE_LIMIT_MS) seg) segments /\
    ((exists report, fst (aggregateDeviceData host port w) = Returned report) ->
     length segments = length batches).
Proof.
  destruct (aggregateDeviceData_run host port w) as (batches & Hb & _ & Heq).
  destruct (forLoop_trace batches host port (length batches) 0 (mkAcc [] []) (ticked w)
              eq_refl) as (segments & Htrace & Hall & _ & _ & Hret).
  exists batches, segments. rewrite Heq. simpl skipn in Hall.
  destruct (forLoop _ _ _ _) as [[acc | e |] w1]; simpl in *;
    (repeat split; trivial;
     [ clear - Hall; induction Hall as [|b seg bs segs Hd _ IH]; constructor; trivial;
       apply (Dispatch_events Hd)
     | try (intros [report H]; discriminate) ]).
  intros _. apply Hret. eauto.
Qed.

(** The fuel of the model is never what ends a run: the loop of the driver,
    and the run around it, either return or throw. *)
Lemma forLoop_finishes (batches : list (list string)) (host : string) (port : Z) :
  forall (indices : list nat) (acc : Acc) (w : World),
    fst (forLoop indices (processBatch batches host port) acc w) <> Unfinished.
Proof.
  induction indices as [|i indices IH]; intros acc w; [discriminate|].
  simpl. unfold bind at 1.
  destruct (nth_error batches i) as [batch|] eqn:Hnth;
    [|unfold processBatch; rewrite Hnth; discriminate].
  destruct (fetchWithRetry_returns batch host port w) as (result & w1 & Hrun & _).
  rewrite (processBatch_run batches host port i batch acc w w1 result Hnth Hrun).
  destruct (failed result) eqn:Hf.
  - rewrite collect_failed by exact Hf. apply IH.
  - rewrite collect_spread by exact Hf.
    destruct (JS.spread (Result.data result)); [apply IH | discriminate].
Qed.

Lemma aggregateDeviceData_finishes (host : string) (port : Z) (w : World) :
  fst (aggregateDeviceData host port w) <> Unfinished.
Proof.
  destruct (aggregateDeviceData_run host port w) as (batches & _ & _ & Heq).
  rewrite Heq.
  pose proof (forLoop_finishes batches host port (seq 0 (length batches))
                (mkAcc [] []) (ticked w)) as Hloop.
  destruct (forLoop _ _ _ _) as [[acc | e |] w1]; simpl in *; congruence.
Qed.

(* ------------------------------------------------------------------ *)
(** ** A failed batch in the middle of the run *)

(** The loop over two lists of indices, one after the other. *)
Lemma forLoop_app (body : nat -> Acc -> M Acc) :
  forall (indices rest : list nat) (acc : Acc) (w : World),
    forLoop (indices ++ rest) body acc w =
    match forLoop indices body acc w with
    | (Returned acc', w') => forLoop rest body acc' w'
    | (Thrown e, w') => (Thrown e, w')
    | (Unfinished, w') => (Unfinished, w')
    end.
Proof.
  induction indices as [|i indices IH]; intros rest acc w; [reflexivity|].
  simpl. unfold bind.
  destruct (body i acc w) as [[acc' | e |] w']; trivial.
Qed.

(** What is in the trace stays there. *)
Lemma forLoop_extends (batches : list (list string)) (host : string) (port : Z) :
  forall (indices : list nat) (acc : Acc) (w : World),
    exists evs,
      trace (snd (forLoop indices (processBatch batches host port) acc w)) = trace w ++ evs.
Proof.
  induction indices as [|i indices IH]; intros acc w.
  - exists []. simpl. now rewrite app_nil_r.
  - simpl. unfold bind at 1.
    destruct (nth_error batches i) as [batch|] eqn:Hnth.
    + destruct (fetchWithRetry_returns batch host port w)
        as (result & w1 & Hrun & reqs & _ & _ & _ & Htr & _).
      rewrite (processBatch_run batches host port i batch acc w w1 result Hnth Hrun).
      assert (Hgo : forall acc',
                 exists evs,
                   trace (snd (forLoop indices (processBatch batches host port) acc'
                                 (snd (spacing batches i w1)))) = trace w ++ evs).
      { intros acc'. destruct (IH acc' (snd (spacing batches i w1))) as (evs & Hevs).
        rewrite Hevs, spacing_run. simpl snd.
        destruct (_ <? _); simpl; rewrite Htr, <- ?app_assoc; eauto. }
      destruct (failed result) eqn:Hf.
      * rewrite collect_failed by exact Hf. apply Hgo.
      * rewrite collect_spread by exact Hf.
        destruct (JS.spread (Result.data result)); [apply Hgo|].
        simpl. rewrite Htr. eauto.
    + unfold processBatch. rewrite Hnth. exists []. simpl. now rewrite app_nil_r.
Qed.

(** A loop is only ever ended by a throw at a batch that the driver took
    for a success and whose data cannot be iterated. *)
Lemma forLoop_thrown (batches : list (list string)) (host : string) (port : Z) :
  forall (indices : list nat) (acc : Acc) (w w' : World) (e : string),
    Forall (fun i => (i < length batches)%nat) indices ->
    forLoop indices (processBatch batches host port) acc w = (Thrown e, w') ->
    exists j batch result wj wj1,
      In j indices /\
      nth_error batches j = Some batch /\
      fetchWithRetry batch host port 0 wj = (Returned result, wj1) /\
      failed result = false /\
      JS.spread (Result.data result) = None.
Proof.
  induction indices as [|i indices IH]; intros acc w w' e Hvalid Hloop; [discriminate|].
  inversion Hvalid as [|? ? Hi Hrest]; subst.
  destruct (nth_error batches i) as [batch|] eqn:Hnth;
    [|apply nth_error_None in Hnth; lia].
  destruct (fetchWithRetry_returns batch host port w) as (result & w1 & Hrun & _).
  simpl in Hloop. unfold bind at 1 in Hloop.
  rewrite (processBatch_run batches host port i batch acc w w1 result Hnth Hrun) in Hloop.
  assert (Hgo : forall acc' w2,
             forLoop indices (processBatch batches host port) acc' w2 = (Thrown e, w') ->
             exists j batch result wj wj1,
               In j (i :: indices) /\
               nth_error batches j = Some batch /\
               fetchWithRetry batch host port 0 wj = (Returned result, wj1) /\
               failed result = false /\
               JS.spread (Result.data result) = None).
  { intros acc' w2 H.
    destruct (IH acc' w2 w' e Hrest H) as (j & b & r & wj & wj1 & Hj & Hrestj).
    exists j, b, r, wj, wj1. split; [now right | exact Hrestj]. }
  destruct (failed result) eqn:Hf.
  - rewrite collect_failed in Hloop by exact Hf. eapply Hgo, Hloop.
  - rewrite collect_spread in Hloop by exact Hf.
    destruct (JS.spread (Result.data result)) eqn:Hsp; [eapply Hgo, Hloop|].
    exists i, batch, result, w, w1. repeat split; trivial. now left.
Qed.

(** C4.  Take the run at the moment it comes to batch [k] (counted from 0),
    with what the batches before have put in the accumulators, and let the
    dispatch of that batch end in a result that the driver takes for a
    failure (in particular any result whose [success] is [false]).  Then
    that turn of the loop returns normally, leaves the records untouched
    and adds exactly one descriptor to [errors]: the batch number [k + 1],
    the batch, the error detail and the status code.  The run goes on: when
    there is a next batch, the trace of the run continues, right after the
    failed dispatch, with the pause and the dispatch of that next batch.
    If the run is ended by a throw, that is at a later batch, one the driver
    took for a success and whose data cannot be iterated.  And if the run
    returns a report, every later batch has been dispatched in order, and
    the report's [errors] hold the descriptor once, after those of the
    batches before and before those of the batches after. *)
Theorem failed_batch_recorded_and_run_goes_on (host : string) (port : Z) (w : World)
    (batches : list (list string)) (k : nat) (batch : list string) (acc : Acc)
    (wk w1 : World) (result : Result.t) :
  createBatches (S (length generateSerialNumbers)) generateSerialNumbers
    CONFIG.BATCH_SIZE = Some batches ->
  forLoop (seq 0 k) (processBatch batches host port) (mkAcc [] []) (ticked w) =
    (Returned acc, wk) ->
  nth_error batches k = Some batch ->
  fetchWithRetry batch host port 0 wk = (Returned result, w1) ->
  Result.success result = false \/ failed result = true ->
  let d := Failure.mk (Z.of_nat k + 1) batch (Result.error result) (Result.statusCode result) in
  exists w2,
    processBatch batches host port k acc wk =
      (Returned (mkAcc (aggregatedData acc) (errors acc ++ [d])), w2) /\
    (forall next,
        nth_error batches (S k) = Some next ->
        exists seg evs,
          Dispatch next seg /\
          trace (snd (aggregateDeviceData host port w)) =
            trace w1 ++ ESleep CONFIG.RATE_LIMIT_MS :: seg ++ evs) /\
    (forall e,
        fst (aggregateDeviceData host port w) = Thrown e ->
        exists j later result' wj wj1,
          (k < j)%nat /\
          nth_error batches j = Some later /\
          fetchWithRetry later host port 0 wj = (Returned result', wj1) /\
          failed result' = false /\
          JS.spread (Result.data result') = None) /\
    (forall report w',
        aggregateDeviceData host port w = (Returned report, w') ->
        exists visits wN,
          LoopRun batches host port (seq (S k) (length batches - S k)) w2 visits wN /\
          Report.data report =
            aggregatedData acc ++ concat (map (fun v => records (outcome v)) visits) /\
          Report.errors report =
            errors acc ++ d :: map descriptor (filter (fun v => failed (outcome v)) visits)).
Proof.
  intros Hb Hpre Hnth Hrun Hfail d.
  assert (Hf : failed result = true).
  { destruct Hfail as [Hs | Hf]; trivial. unfold failed. now rewrite Hs. }
  set (acc' := mkAcc (aggregatedData acc) (errors acc ++ [d])).
  set (w2 := snd (spacing batches k w1)).
  assert (Hturn : processBatch batches host port k acc wk = (Returned acc', w2)).
  { rewrite (processBatch_run batches host port k batch acc wk w1 result Hnth Hrun).
    rewrite collect_failed by exact Hf. reflexivity. }
  assert (Hk : (k < length batches)%nat) by (apply nth_error_Some; congruence).
  set (rest := seq (S k) (length batches - S k)).
  assert (Hsplit : seq 0 (length batches) = seq 0 k ++ k :: rest).
  { unfold rest. replace (length batches) with (k + S (length batches - S k))%nat at 1 by lia.
    rewrite seq_app. reflexivity. }
  assert (Hloop : forLoop (seq 0 (length batches)) (processBatch batches host port)
                    (mkAcc [] []) (ticked w) =
                  forLoop rest (processBatch batches host port) acc' w2).
  { rewrite Hsplit, forLoop_app, Hpre. simpl. unfold bind at 1. now rewrite Hturn. }
  destruct (aggregateDeviceData_run host port w) as (batches' & Hb' & _ & Heq).
  rewrite Hb in Hb'. injection Hb' as <-. rewrite Hloop in Heq.
  exists w2. split; [exact Hturn|]. split; [|split].
  - intros next Hnext.
    assert (Hk1 : (S k < length batches)%nat) by (apply nth_error_Some; congruence).
    assert (Hw2 : w2 = slept CONFIG.RATE_LIMIT_MS w1).
    { unfold w2. rewrite spacing_run. simpl.
      destruct (Z.ltb_spec (Z.of_nat k) (Z.of_nat (length batches) - 1)); [reflexivity | lia]. }
    destruct (fetchWithRetry_returns next host port w2) as (result' & w3 & Hrun' & Hatt).
    destruct (Attempted_dispatch Hatt) as (seg & Hseg & Htr).
    assert (Hrest : rest = S k :: seq (S (S k)) (length batches - S (S k))).
    { unfold rest. replace (length batches - S k)%nat
        with (S (length batches - S (S k))) by lia. reflexivity. }
    assert (Htail : exists evs,
               trace (snd (forLoop rest (processBatch batches host port) acc' w2)) =
               trace w3 ++ evs).
    { rewrite Hrest. simpl. unfold bind at 1.
      rewrite (processBatch_run batches host port (S k) next acc' w2 w3 result' Hnext Hrun').
      assert (Hgo : forall acc'',
                 exists evs,
                   trace (snd (forLoop (seq (S (S k)) (length batches - S (S k)))
                                 (processBatch batches host port) acc''
                                 (snd (spacing batches (S k) w3)))) = trace w3 ++ evs).
      { intros acc''.
        destruct (forLoop_extends batches host port
                    (seq (S (S k)) (length batches - S (S k))) acc''
                    (snd (spacing batches (S k) w3))) as (evs & Hevs).
        rewrite Hevs, spacing_run. simpl snd.
        destruct (_ <? _); simpl; rewrite <- ?app_assoc; eauto. }
      destruct (failed result') eqn:Hf'.
      - rewrite collect_failed by exact Hf'. apply Hgo.
      - rewrite collect_spread by exact Hf'.
        destruct (JS.spread (Result.data result')); [apply Hgo|].
        exists []. simpl. now rewrite app_nil_r. }
    destruct Htail as (evs & Hevs).
    exists seg, evs. split; [exact Hseg|].
    assert (Hsame : trace (snd (aggregateDeviceData host port w)) =
                    trace (snd (forLoop rest (processBatch batches host port) acc' w2))).
    { rewrite Heq. destruct (forLoop rest _ _ _) as [[accN | e |] wN]; reflexivity. }
    rewrite Hsame, Hevs, Htr, Hw2. simpl. rewrite <- !app_assoc. reflexivity.
  - intros e He. rewrite Heq in He.
    destruct (forLoop rest _ _ _) as [[accN | e' |] wN] eqn:Hrestloop; try discriminate.
    simpl in He. injection He as ->.
    destruct (forLoop_thrown batches host port rest acc' w2 wN e)
      as (j & later & result' & wj & wj1 & Hj & Hrestj); trivial.
    + apply Forall_forall. intros i Hi. apply in_seq in Hi. lia.
    + exists j, later, result', wj, wj1. split; [|exact Hrestj].
      apply in_seq in Hj. lia.
  - intros report w' Hret. rewrite Heq in Hret.
    destruct (forLoop rest _ _ _) as [[accN | e |] wN] eqn:Hrestloop; try discriminate.
    injection Hret as <- <-.
    destruct (forLoop_returned _ _ _ _ _ _ _ _ Hrestloop) as (visits & Hvis & Hdata & Herr).
    exists visits, wN. split; [exact Hvis|]. simpl. split; [exact Hdata|].
    rewrite Herr. simpl. rewrite <- app_assoc. reflexivity.
Qed.

(* ------------------------------------------------------------------ *)
(** ** The Signer and the server's check of it *)






(** C8. The token the client puts on a request for [/device/real/query] is
    the signature [securityCheck] computes for that path and timestamp, so
    the check never answers such a request with "Invalid Signature": neither
    for an arbitrary timestamp, nor for the requests [fetchDeviceData]
    sends. *)
Theorem client_signature_accepted (snList : list string) (host : string) (port : Z) :
  (forall timestamp,
      generateSignature timestamp = expectedSig CONFIG.API_URL timestamp /\
      securityCheck
        (received (mkRequest host port CONFIG.API_URL "POST"
                     (generateSignature timestamp) timestamp snList))
      <> Respond 401 "Invalid Signature") /\
  (forall w,
      securityCheck (received (issued snList host port w))
      <> Respond 401 "Invalid Signature").
Proof.
  assert (Hcheck : forall timestamp,
    securityCheck
      (received (mkRequest host port CONFIG.API_URL "POST"
                   (generateSignature timestamp) timestamp snList))
    <> Respond 401 "Invalid Signature").
  { intros timestamp. unfold securityCheck, received. simpl.
    destruct (_ || _); [discriminate|].
    change (expectedSig "/device/real/query" timestamp)
      with (generateSignature timestamp).
    rewrite String.eqb_refl. discriminate. }
  split.
  - intros timestamp. split; [reflexivity | apply Hcheck].
  - intros w. apply Hcheck.
Qed.

Lemma isHexTokenb_sound (n : nat) (s : string) :
  isHexTokenb n s = true -> isHexToken n s.
Proof.
  unfold isHexTokenb, isHexToken. intros H.
  apply andb_true_iff in H. destruct H as [Hlen Hall].
  split; [now apply Nat.eqb_eq|].
  apply Forall_forall. intros c Hc.
  rewrite forallb_forall in Hall. apply Hall in Hc.
  apply existsb_exists in Hc. destruct Hc as (d & Hd & Heq).
  apply Ascii.eqb_eq in Heq. now subst.
Qed.

(* ------------------------------------------------------------------ *)
(** ** The mock endpoint of the server *)

(** X1. [securityCheck] calls [next()] exactly for a request whose
    [signature] and [timestamp] headers are both present and not empty and
    whose signature is the digest of [originalUrl + SECRET_TOKEN +
    timestamp]; every other request is answered with the status 401, for
    missing headers or for an invalid signature. *)
Theorem securityCheck_accepts_iff (req : Incoming) :
  (securityCheck req = Next <->
   exists sig ts,
     header "signature" (headers req) = Some sig /\
     header "timestamp" (headers req) = Some ts /\
     sig <> "" /\ ts <> "" /\
     sig = expectedSig (originalUrl req) ts) /\
  (securityCheck req = Next \/
   securityCheck req = Respond 401 "Missing headers: signature or timestamp" \/
   securityCheck req = Respond 401 "Invalid Signature").
Proof.
  unfold securityCheck, missing.
  destruct (header "timestamp" (headers req)) as [ts|] eqn:Hts;
    destruct (header "signature" (headers req)) as [sig|] eqn:Hsig;
    repeat match goal with
      | |- context [String.eqb ?a ?b] => destruct (String.eqb_spec a b)
      end; simpl;
    (split; [split | auto 6]);
    try discriminate; try reflexivity;
    try (intros (sig' & ts' & Hs & Ht & Hne1 & Hne2 & He); try discriminate;
         injection Hs as <-; injection Ht as <-; contradiction).
  intros _. exists sig, ts. auto.
Qed.

Lemma last_nonempty {A : Type} (l : list A) (a d d' : A) :
  last (a :: l) d = last (a :: l) d'.
Proof.
  revert a. induction l as [|b l IH]; intros a; [reflexivity|].
  change (last (b :: l) d = last (b :: l) d'). apply IH.
Qed.

Lemma rateLimiter_cases (now last : Z) :
  (950 <= now - last /\ rateLimiter now last = (Next, now)) \/
  (now - last < 950 /\
   rateLimiter now last = (Respond 429 "Too Many Requests. Limit: 1 req/sec.", last)).
Proof.
  unfold rateLimiter. destruct (Z.ltb_spec (now - last) 950); [right | left]; auto.
Qed.

(** X2. Whatever the arrival times, the requests [rateLimiter] lets through
    are at least 950 ms apart, the first of them at least 950 ms after the
    [lastRequestTime] it started from; a request it rejects gets the status
    429 and leaves [lastRequestTime] as it was, so that at the end
    [lastRequestTime] is the time of the last request let through. *)
Theorem rateLimiter_keeps_requests_apart (arrivals : list Z) (last0 : Z) :
  let verdicts := fst (rateLimited arrivals last0) in
  length verdicts = length arrivals /\
  Forall (fun v => v = Next \/ v = Respond 429 "Too Many Requests. Limit: 1 req/sec.")
    verdicts /\
  spaced 950 last0 (admitted arrivals verdicts) /\
  snd (rateLimited arrivals last0) = last (admitted arrivals verdicts) last0.
Proof.
  revert last0. induction arrivals as [|now arrivals IH]; intros last0; simpl.
  - repeat split. constructor.
  - destruct (rateLimiter_cases now last0) as [[Hgap ->] | [Hgap ->]].
    + specialize (IH now). simpl in IH.
      destruct (rateLimited arrivals now) as [verdicts final]. simpl in *.
      destruct IH as (Hlen & Hall & Hsp & Hlast).
      repeat split; auto.
      rewrite Hlast. destruct (admitted arrivals verdicts); [reflexivity|].
      apply last_nonempty.
    + specialize (IH last0). simpl in IH.
      destruct (rateLimited arrivals last0) as [verdicts final]. simpl in *.
      destruct IH as (Hlen & Hall & Hsp & Hlast).
      repeat split; auto.
Qed.

(** X3. Requests that arrive at least 950 ms apart, the first at least
    950 ms after [lastRequestTime], are all let through: none is answered
    with 429. *)
Theorem rateLimiter_admits_spaced_requests (arrivals : list Z) (last0 : Z) :
  spaced 950 last0 arrivals ->
  fst (rateLimited arrivals last0) = map (fun _ => Next) arrivals /\
  snd (rateLimited arrivals last0) = last arrivals last0.
Proof.
  revert last0. induction arrivals as [|now arrivals IH]; intros last0; simpl.
  - auto.
  - intros [Hgap Hrest].
    destruct (rateLimiter_cases now last0) as [[_ ->] | [Hlt _]]; [|lia].
    destruct (IH now Hrest) as [Hv Hl].
    destruct (rateLimited arrivals now) as [verdicts final]. simpl in *.
    subst. split; trivial. destruct arrivals; [reflexivity | apply last_nonempty].
Qed.

Lemma deviceRecord_recordFor (p : Platform) (sn : JS.value) (d : Drawn) :
  recordFor sn (deviceRecord p sn d).
Proof.
  unfold recordFor, deviceRecord. simpl. repeat split.
  - destruct (PrimFloat.ltb _ _); auto.
  - eexists. eexists. split; reflexivity.
Qed.

Lemma mapRecords_spec (p : Platform) :
  forall (items : list JS.value) (d : Drawn),
    Forall2 recordFor items (fst (mapRecords p items d)) /\
    snd (mapRecords p items d) =
      mkDrawn (randoms d + 2 * length items) (dates d + length items).
Proof.
  induction items as [|sn items IH]; intros d; simpl.
  - split; [constructor | destruct d; simpl; f_equal; lia].
  - specialize (IH (mkDrawn (S (S (randoms d))) (S (dates d)))).
    destruct (mapRecords p items _) as [results d']. simpl in *.
    destruct IH as [Hall ->]. split.
    + constructor; trivial. apply deviceRecord_recordFor.
    + f_equal; lia.
Qed.

(** X4. The handler of [POST /device/real/query] answers 200 exactly when
    [sn_list] is an array of at most 10 elements: then [data] holds one
    record per element, in the order of the request, each carrying its
    serial number, a status that is "Online" or "Offline", a power ending
    in " kW" and a date, and the handler has taken two random draws and one
    date per element.  A longer array, or an [sn_list] that is no array,
    gets the status 400 and draws nothing. *)
Theorem queryHandler_replies (p : Platform) (body : JS.value) (d : Drawn) :
  (forall items,
      JS.prop "sn_list" body = Some (JS.Arr items) ->
      (length items <= 10)%nat ->
      exists results,
        queryHandler p body d =
          (Returned (mkReply 200 (JS.Obj [("data", JS.Arr results)])),
           mkDrawn (randoms d + 2 * length items) (dates d + length items)) /\
        Forall2 recordFor items results) /\
  (forall items,
      JS.prop "sn_list" body = Some (JS.Arr items) ->
      (10 < length items)%nat ->
      queryHandler p body d =
        (Returned (errorReply 400 "Batch size limit exceeded (Max 10)"), d)) /\
  (forall v,
      JS.prop "sn_list" body = Some v ->
      (forall items, v <> JS.Arr items) ->
      queryHandler p body d = (Returned (errorReply 400 "sn_list array is required"), d)).
Proof.
  unfold queryHandler, MAX_BATCH_SIZE. repeat split.
  - intros items -> Hlen.
    destruct (Z.gtb_spec (Z.of_nat (length items)) 10) as [Hgt | _]; [lia|].
    destruct (mapRecords_spec p items d) as [Hall Hd].
    destruct (mapRecords p items d) as [results d']. simpl in *. subst d'.
    exists results. split; trivial.
  - intros items -> Hlen.
    destruct (Z.gtb_spec (Z.of_nat (length items)) 10) as [_ | Hle]; [reflexivity | lia].
  - intros v -> Hno. destruct v; try reflexivity. now destruct (Hno items).
Qed.

Lemma securityCheck_status (req : Incoming) (st : Z) (message : string) :
  securityCheck req = Respond st message -> st = 401.
Proof.
  unfold securityCheck.
  destruct (missing _ || missing _); [now intros [= <- _]|].
  destruct (header "signature" _); [|now intros [= <- _]].
  destruct (header "timestamp" _); [|now intros [= <- _]].
  destruct (negb _); [now intros [= <- _] | discriminate].
Qed.

(** X5. A request to [POST /device/real/query] goes through the body
    parser, the rate limiter, the signature check and the handler, in that
    order.  A request whose body the parser rejects is answered with the
    status of that error and changes nothing in the server: the limiter
    has not run.  A request with a parsed body that comes inside the 950 ms
    window gets the status 429 whatever its headers and that body, and
    changes nothing in the server either.  Outside the window it takes the
    slot, [lastRequestTime] becoming its arrival time, also when the
    signature check then answers it with 401, in which case nothing is
    drawn. *)
Theorem postDeviceQuery_parser_then_limiter (p : Platform) (now : Z) (req : Incoming)
    (s : Server) :
  (forall st, postDeviceQuery p now req (BodyRejected st) s = (Refused st, s)) /\
  (forall body,
      now - lastRequestTime s < 950 ->
      postDeviceQuery p now req (BodyParsed body) s =
        (Replied (errorReply 429 "Too Many Requests. Limit: 1 req/sec."), s)) /\
  (forall body,
      950 <= now - lastRequestTime s ->
      lastRequestTime (snd (postDeviceQuery p now req (BodyParsed body) s)) = now /\
      (securityCheck req <> Next ->
       exists message,
         postDeviceQuery p now req (BodyParsed body) s =
           (Replied (errorReply 401 message), mkServer now (drawn s)))).
Proof.
  split; [reflexivity|].
  unfold postDeviceQuery, deviceQuery. split; intros body Hgap;
    destruct (rateLimiter_cases now (lastRequestTime s)) as [[H ->] | [H ->]]; try lia.
  - destruct s; reflexivity.
  - destruct (securityCheck req) as [|st message] eqn:Hv.
    + destruct (queryHandler p body (drawn s)) as [[reply | e |] d'];
        (split; [reflexivity|]); intros Hno; now destruct Hno.
    + apply securityCheck_status in Hv. subst st.
      split; [reflexivity|]. intros _. eexists. reflexivity.
Qed.

(* ------------------------------------------------------------------ *)
(** ** More on the Batcher, the Transport Client and the Retry Policy *)

(** The batches the loop adds from the index [i] on: how many, and which
    elements each holds. *)
Lemma createBatches_loop_shape {A : Type} (array : list A) (s : Z) :
  0 < s ->
  forall (fuel : nat) (i : Z) (batches : list (list A)),
    0 <= i < Z.of_nat (length array) + s ->
    (Z.to_nat (Z.of_nat (length array) - i) < fuel)%nat ->
    exists bs,
      createBatches_loop fuel array s i batches = Some (batches ++ bs) /\
      Z.of_nat (length bs) = (Z.of_nat (length array) - i + s - 1) / s /\
      forall k, (k < length bs)%nat ->
        nth_error bs k =
        Some (firstn (Z.to_nat s) (skipn (Z.to_nat i + k * Z.to_nat s) array)).
Proof.
  intros Hs. induction fuel as [|fuel IH]; intros i batches Hi Hfuel; [lia|].
  simpl. destruct (i <? Z.of_nat (length array)) eqn:Hlt.
  - apply Z.ltb_lt in Hlt.
    destruct (IH (i + s) (batches ++ [JS.slice array i (i + s)]))
      as (bs & Hrun & Hlen & Hnth); [lia | lia |].
    rewrite slice_inside in * by lia.
    exists (firstn (Z.to_nat s) (skipn (Z.to_nat i) array) :: bs). repeat split.
    + rewrite Hrun, <- app_assoc. reflexivity.
    + simpl length. rewrite Nat2Z.inj_succ, Hlen.
      replace (Z.of_nat (length array) - i + s - 1)
        with (Z.of_nat (length array) - (i + s) + s - 1 + 1 * s) by lia.
      rewrite Z.div_add by lia. lia.
    + intros [|k] Hk; simpl.
      * now rewrite Nat.add_0_r.
      * rewrite Hnth by (simpl in Hk; lia). do 3 f_equal. lia.
  - apply Z.ltb_ge in Hlt. exists []. repeat split.
    + now rewrite app_nil_r.
    + simpl. symmetry. apply Z.div_small. lia.
    + intros k Hk. simpl in Hk. lia.
Qed.

(** X6. For a positive size [s], [createBatches] cuts an array of [n]
    elements into [ceil(n / s)] batches, and the batch number [k] (from 0)
    holds the [s] elements from the position [k * s] on, or those that are
    left. *)
Theorem createBatches_count_and_content {A : Type} (array : list A) (s : Z) (fuel : nat) :
  0 < s ->
  (length array < fuel)%nat ->
  exists batches,
    createBatches fuel array s = Some batches /\
    Z.of_nat (length batches) = (Z.of_nat (length array) + s - 1) / s /\
    forall k, (k < length batches)%nat ->
      nth_error batches k =
      Some (firstn (Z.to_nat s) (skipn (k * Z.to_nat s) array)).
Proof.
  intros Hs Hfuel.
  destruct (createBatches_loop_shape array s Hs fuel 0 [])
    as (bs & Hrun & Hlen & Hnth); [lia | lia |].
  exists bs. unfold createBatches. rewrite Hrun. simpl.
  rewrite Z.sub_0_r in Hlen. repeat split; trivial.
Qed.

(** X7. A status 200 whose body parses to a value with a readable [data]
    ends [fetchWithRetry] at once, whatever [retryCount]: one request, no
    pause, and the result carries that [data] with [success] true. *)
Theorem fetchWithRetry_success_once (snList : list string) (host : string)
    (port : Z) (retryCount : nat) (w : World) (body : string) (parsed d : JS.value) :
  network env (requests w) (issued snList host port w) = HttpResponse 200 body ->
  JSON_parse body = Some parsed ->
  JS.dataOf parsed = Some d ->
  fetchWithRetry snList host port retryCount w =
    (Returned (Result.mk true d None 200), fetched snList host port w) /\
  requests (fetched snList host port w) = S (requests w) /\
  trace (fetched snList host port w) = trace w ++ [ERequest (issued snList host port w)].
Proof.
  intros Hres Hparse Hdata.
  assert (Hs : settle (network env (requests w) (issued snList host port w)) =
               Resolved (Result.mk true d None 200)).
  { rewrite Hres. simpl. now rewrite Hparse, Hdata. }
  rewrite fetchWithRetry_stops; rewrite Hs; auto.
Qed.

(** X8. When the connection fails on every attempt, [fetchWithRetry] makes
    [MAX_RETRIES + 1 = 4] requests and then returns, without throwing, the
    failure of the last one: [success] false, its message, status 0. *)
Theorem fetchWithRetry_network_errors (snList : list string) (host : string)
    (port : Z) (w : World) :
  (forall k req, exists message, network env k req = NetworkError message) ->
  exists message req w',
    fetchWithRetry snList host port 0 w =
      (Returned (Result.mk false JS.Undefined (Some message) 0), w') /\
    requests w' = (requests w + 4)%nat /\
    last (trace w') (ESleep 0) = ERequest req /\
    network env (requests w + 3) req = NetworkError message.
Proof.
  intros Hdown.
  assert (Hretry : forall k req, retryable (settle (network env k req)) = true).
  { intros k req. destruct (Hdown k req) as (message & ->). reflexivity. }
  destruct (fetchWithRetry_exhausts snList host port Hretry CONFIG.MAX_RETRIES 0 w
              (Nat.le_0_l _) eq_refl) as (wl & Hreq & Hrun).
  destruct (Hdown (requests wl) (issued snList host port wl)) as (message & Hm).
  rewrite Hm in Hrun. simpl in Hrun.
  exists message, (issued snList host port wl), (fetched snList host port wl).
  repeat split; trivial.
  - simpl. unfold CONFIG.MAX_RETRIES in Hreq. lia.
  - simpl. apply last_last.
  - change 3%nat with CONFIG.MAX_RETRIES. rewrite <- Hreq. exact Hm.
Qed.

Lemma Dispatched_once (snList : list string) (host : string) (port : Z) (w : World) :
  Dispatched snList host port 1 w (fetched snList host port w).
Proof. unfold Dispatched. simpl. repeat split; lia. Qed.

Lemma Dispatched_again (snList : list string) (host : string) (port : Z)
    (n : nat) (w w' : World) :
  (1 <= n)%nat ->
  Dispatched snList host port n
    (slept CONFIG.RETRY_DELAY_MS (fetched snList host port w)) w' ->
  Dispatched snList host port (S n) w w'.
Proof.
  intros Hn (Hreq & Hclk & Htr). simpl in Hreq, Hclk, Htr.
  repeat split; try lia.
  rewrite Htr. simpl seq. simpl map. rewrite joinWith_cons.
  - rewrite <- !app_assoc. reflexivity.
  - destruct n; [lia | discriminate].
Qed.

(** The requests of a call of [fetchWithRetry]: one per reading of the
    clock, each built from its own reading. *)
Lemma fetchWithRetry_requests (snList : list string) (host : string) (port : Z) :
  forall (m retryCount : nat) (w : World),
    (CONFIG.MAX_RETRIES - retryCount = m)%nat ->
    exists result w' n,
      fetchWithRetry snList host port retryCount w = (Returned result, w') /\
      (1 <= n <= S m)%nat /\
      Dispatched snList host port n w w'.
Proof.
  induction m as [|m IH]; intros retryCount w Hm; rewrite fetchWithRetry_step.
  - assert (Hge : (retryCount <? CONFIG.MAX_RETRIES)%nat = false)
      by (apply Nat.ltb_ge; lia).
    destruct (settle _) as [result | err]; rewrite Hge, ?andb_false_r;
      eexists; eexists; exists 1%nat;
      (split; [reflexivity | split; [lia | apply Dispatched_once]]).
  - assert (Hlt : (retryCount <? CONFIG.MAX_RETRIES)%nat = true)
      by (apply Nat.ltb_lt; lia).
    destruct (IH (retryCount + 1)%nat
                (slept CONFIG.RETRY_DELAY_MS (fetched snList host port w)))
      as (result' & w' & n & Hrun & Hn & Hd); [lia|].
    apply Dispatched_again in Hd; [|lia].
    assert (Hmore : exists result0 w0 n0,
      fetchWithRetry snList host port (retryCount + 1)
        (slept CONFIG.RETRY_DELAY_MS (fetched snList host port w)) =
        (Returned result0, w0) /\
      (1 <= n0 <= S (S m))%nat /\ Dispatched snList host port n0 w w0).
    { exists result', w', (S n). split; [exact Hrun | split; [lia | exact Hd]]. }
    destruct (settle _) as [result | err]; rewrite Hlt, ?andb_true_r; [|exact Hmore].
    destruct (negb (Result.success result) && (Result.statusCode result =? 429));
      [exact Hmore|].
    eexists; eexists; exists 1%nat.
    split; [reflexivity | split; [lia | apply Dispatched_once]].
Qed.

(** X9. Each attempt of [fetchWithRetry] is signed afresh: a call makes
    between one and four requests, the [j]-th of them built from the [j]-th
    reading of the clock the call takes, with that reading as timestamp and
    the signature of that timestamp, and the retry delay stands between each
    two of them.  No timestamp or signature is reused from an earlier
    attempt's reading. *)
Theorem fetchWithRetry_signs_each_attempt (snList : list string) (host : string)
    (port : Z) (w : World) :
  exists result w' n,
    fetchWithRetry snList host port 0 w = (Returned result, w') /\
    (1 <= n <= 4)%nat /\
    requests w' = (requests w + n)%nat /\
    clockReads w' = (clockReads w + n)%nat /\
    trace w' =
      trace w ++
      joinWith (ESleep 2000)
        (map (fun c => [ERequest (requestAt snList host port c)]) (seq (clockReads w) n)) /\
    forall c,
      timestamp (requestAt snList host port c) = JS.toString (clock env c) /\
      signature (requestAt snList host port c) =
        generateSignature (JS.toString (clock env c)) /\
      sn_list (requestAt snList host port c) = snList.
Proof.
  destruct (fetchWithRetry_requests snList host port CONFIG.MAX_RETRIES 0 w eq_refl)
    as (result & w' & n & Hrun & Hn & Hreq & Hclk & Htr).
  exists result, w', n. unfold CONFIG.MAX_RETRIES in Hn.
  repeat split; trivial; lia.
Qed.

(** When the answers to the next [j] requests are all retried and the one
    after them is not, a call with enough retries left returns what that
    answer settles with. *)
Lemma fetchWithRetry_first_final (snList : list string) (host : string) (port : Z) :
  forall (j retryCount : nat) (w : World),
    (retryCount + j <= CONFIG.MAX_RETRIES)%nat ->
    (forall k req, (k < j)%nat ->
                   retryable (settle (network env (requests w + k) req)) = true) ->
    (forall req, retryable (settle (network env (requests w + j) req)) = false) ->
    exists wl,
      requests wl = (requests w + j)%nat /\
      fetchWithRetry snList host port retryCount w =
      (Returned (payload (settle (network env (requests wl) (issued snList host port wl)))),
       fetched snList host port wl).
Proof.
  induction j as [|j IH]; intros retryCount w Hle Hretry Hfinal.
  - exists w. split; [lia|]. apply fetchWithRetry_stops.
    rewrite <- (Nat.add_0_r (requests w)) at 1. apply Hfinal.
  - destruct (IH (retryCount + 1)%nat
                (slept CONFIG.RETRY_DELAY_MS (fetched snList host port w)))
      as (wl & Hreq & Hrun).
    + lia.
    + intros k req Hk. simpl. rewrite <- Nat.add_succ_r. apply Hretry. lia.
    + intros req. simpl. rewrite <- Nat.add_succ_r. apply Hfinal.
    + exists wl. split; [simpl in Hreq; lia|].
      rewrite fetchWithRetry_step.
      assert (Hlt : (retryCount <? CONFIG.MAX_RETRIES)%nat = true)
        by (apply Nat.ltb_lt; lia).
      specialize (Hretry 0%nat (issued snList host port w) (Nat.lt_0_succ j)).
      rewrite Nat.add_0_r in Hretry.
      destruct (settle _) as [result | err]; simpl in Hretry;
        rewrite ?Hretry, Hlt; exact Hrun.
Qed.

(** X10. Transient failures are absorbed: when the first [j <= 3] answers
    are rate limits, connection failures or unparseable bodies, and the
    next answer is a status 200 with a readable [data], [fetchWithRetry]
    returns that success after exactly [j + 1] requests. *)
Theorem fetchWithRetry_recovers_after_transient_failures (snList : list string)
    (host : string) (port : Z) (w : World) (j : nat) (body : string)
    (parsed d : JS.value) :
  (j <= CONFIG.MAX_RETRIES)%nat ->
  (forall k req, (k < j)%nat ->
                 retryable (settle (network env (requests w + k) req)) = true) ->
  (forall req, network env (requests w + j) req = HttpResponse 200 body) ->
  JSON_parse body = Some parsed ->
  JS.dataOf parsed = Some d ->
  exists w',
    fetchWithRetry snList host port 0 w = (Returned (Result.mk true d None 200), w') /\
    requests w' = (requests w + j + 1)%nat.
Proof.
  intros Hj Hretry Hok Hparse Hdata.
  assert (Hs : forall req, settle (network env (requests w + j) req) =
                           Resolved (Result.mk true d None 200)).
  { intros req. rewrite Hok. simpl. now rewrite Hparse, Hdata. }
  destruct (fetchWithRetry_first_final snList host port j 0 w) as (wl & Hreq & Hrun).
  - lia.
  - exact Hretry.
  - intros req. now rewrite Hs.
  - rewrite Hreq, Hs in Hrun. exists (fetched snList host port wl).
    split; [exact Hrun | simpl; lia].
Qed.

(* ------------------------------------------------------------------ *)
(** ** More on the Aggregation Driver *)

Lemma Forall_seq_lt (n : nat) : Forall (fun i => (i < n)%nat) (seq 0 n).
Proof. apply Forall_forall. intros i Hi. apply in_seq in Hi. lia. Qed.

(** What a loop run costs: between one and four requests per index, and
    one reading of the clock per request. *)
Lemma LoopRun_accounting (batches : list (list string)) (host : string) (port : Z) :
  forall indices w visits w',
    LoopRun batches host port indices w visits w' ->
    length visits = length indices /\
    (requests w + length indices <= requests w' <= requests w + 4 * length indices)%nat /\
    (clockReads w' - clockReads w = requests w' - requests w)%nat /\
    (clockReads w <= clockReads w')%nat.
Proof.
  induction 1 as [| i indices batch result w w1 w2 w' visits Hnth Hrun Hsp Hloop IH].
  - simpl. repeat split; lia.
  - destruct (fetchWithRetry_returns batch host port w)
      as (result' & w1' & Hrun' & reqs & Hne & Hlen & _ & _ & Hreq & Hclk).
    rewrite Hrun in Hrun'. injection Hrun' as <- <-.
    rewrite spacing_run in Hsp. injection Hsp as <-.
    assert (Hw2 : requests (if Z.of_nat i <? Z.of_nat (length batches) - 1
                            then slept CONFIG.RATE_LIMIT_MS w1 else w1) = requests w1 /\
                  clockReads (if Z.of_nat i <? Z.of_nat (length batches) - 1
                              then slept CONFIG.RATE_LIMIT_MS w1 else w1) = clockReads w1)
      by (destruct (_ <? _); split; reflexivity).
    destruct Hw2 as [Hr2 Hc2]. rewrite Hr2, Hc2 in IH.
    destruct reqs as [|r reqs]; [congruence|]. simpl length in *.
    destruct IH as (Hv & Hq & Hc & Hmono). unfold CONFIG.MAX_RETRIES in Hlen.
    repeat split; simpl; lia.
Qed.

(** X11. A run that returns a report has made between 50 and 200 requests,
    one to four per batch, and has read the clock once per request and
    twice more, at its start and at its end; the count of failed batches
    is at most 50. *)
Theorem aggregateDeviceData_accounting (host : string) (port : Z) (w w' : World)
    (report : Report.t) :
  aggregateDeviceData host port w = (Returned report, w') ->
  (requests w + 50 <= requests w' <= requests w + 200)%nat /\
  clockReads w' = (clockReads w + 2 + (requests w' - requests w))%nat /\
  (Report.failedBatches report <= 50)%nat.
Proof.
  intros Hrun.
  destruct (aggregateDeviceData_run host port w) as (batches & Hb & _ & Heq).
  assert (Hn : length batches = 50%nat).
  { vm_compute in Hb. injection Hb as <-. reflexivity. }
  rewrite Heq in Hrun.
  destruct (forLoop _ _ _ _) as [[acc | e |] w1] eqn:Hloop; try discriminate.
  injection Hrun as <- <-.
  destruct (forLoop_returned _ _ _ _ _ _ _ _ Hloop) as (visits & Hvis & _ & Herr).
  destruct (LoopRun_accounting _ _ _ _ _ _ _ Hvis) as (Hlen & Hreq & Hclk & Hmono).
  clear Hloop Hvis Heq Hb. rewrite length_seq, Hn in *. simpl in *.
  repeat split; try lia.
  rewrite Herr, length_map. simpl.
  pose proof (filter_length_le (fun v => failed (outcome v)) visits). lia.
Qed.

(** X12. When every request is answered, and answered either by something
    the driver takes for a failure (a connection error, a status other than
    200, a body that does not parse or has no [data]) or by a [data] that
    can be iterated (an array or a string), the run ends in a report and
    not in a thrown error: failures of any kind never make the run throw. *)
Theorem aggregateDeviceData_returns_if_iterable (host : string) (port : Z) (w : World) :
  (forall k req,
      failed (payload (settle (network env k req))) = true \/
      exists items,
        JS.spread (Result.data (payload (settle (network env k req)))) = Some items) ->
  exists report w',
    aggregateDeviceData host port w = (Returned report, w') /\
    (requests w + 50 <= requests w' <= requests w + 200)%nat.
Proof.
  intros Hiter.
  destruct (aggregateDeviceData_run host port w) as (batches & Hb & _ & Heq).
  assert (Hn : length batches = 50%nat).
  { vm_compute in Hb. injection Hb as <-. reflexivity. }
  destruct (forLoop (seq 0 (length batches)) (processBatch batches host port)
              (mkAcc [] []) (ticked w)) as [[acc | e |] w1] eqn:Hloop.
  - rewrite Heq. eexists. eexists. split; [reflexivity|].
    destruct (forLoop_returned _ _ _ _ _ _ _ _ Hloop) as (visits & Hvis & _ & _).
    destruct (LoopRun_accounting _ _ _ _ _ _ _ Hvis) as (_ & Hreq & _ & _).
    rewrite length_seq, Hn in Hreq. simpl in *. lia.
  - exfalso.
    destruct (forLoop_thrown batches host port _ _ _ _ _ (Forall_seq_lt (length batches))
                Hloop)
      as (j & batch & result & wj & wj1 & _ & _ & Hrun & Hf & Hsp).
    destruct (fetchWithRetry_result batch host port CONFIG.MAX_RETRIES 0 wj wj1 result
                eq_refl Hrun) as (k & req & ->).
    destruct (Hiter k req) as [Hfail | (items & Hitems)]; congruence.
  - exfalso.
    now apply (forLoop_finishes batches host port (seq 0 (length batches))
                 (mkAcc [] []) (ticked w)); rewrite Hloop.
Qed.

Lemma seq_StronglySorted (a n : nat) : StronglySorted lt (seq a n).
Proof.
  revert a. induction n as [|n IH]; intros a; simpl; constructor; [apply IH|].
  apply Forall_forall. intros k Hk. apply in_seq in Hk. lia.
Qed.

Lemma failures_in_order (f : Visit -> bool) :
  forall visits,
    StronglySorted lt (map index visits) ->
    StronglySorted Z.lt (map Failure.batch (map descriptor (filter f visits))).
Proof.
  induction visits as [|v visits IH]; intros Hs; simpl; [constructor|].
  simpl in Hs. apply StronglySorted_inv in Hs. destruct Hs as [Hs Hall].
  destruct (f v); [|now apply IH].
  simpl. constructor; [now apply IH|].
  apply Forall_forall. intros z Hz.
  apply in_map_iff in Hz. destruct Hz as (fl & <- & Hfl).
  apply in_map_iff in Hfl. destruct Hfl as (v' & <- & Hv').
  apply filter_In in Hv'. destruct Hv' as [Hv' _].
  rewrite Forall_forall in Hall. specialize (Hall (index v') (in_map index _ _ Hv')).
  simpl. lia.
Qed.

(** X13. In a report, [errors] lists the failed batches in increasing batch
    number, so no batch twice, with numbers from 1 to 50, and each
    descriptor carries the serial numbers of the batch of its number. *)
Theorem report_errors_in_batch_order (host : string) (port : Z) (w w' : World)
    (report : Report.t) :
  aggregateDeviceData host port w = (Returned report, w') ->
  exists batches,
    createBatches (S (length generateSerialNumbers)) generateSerialNumbers
      CONFIG.BATCH_SIZE = Some batches /\
    StronglySorted Z.lt (map Failure.batch (Report.errors report)) /\
    Forall (fun f =>
              1 <= Failure.batch f <= 50 /\
              nth_error batches (Z.to_nat (Failure.batch f - 1)) =
                Some (Failure.serialNumbers f))
      (Report.errors report).
Proof.
  intros Hrun.
  destruct (aggregateDeviceData_run host port w) as (batches & Hb & _ & Heq).
  assert (Hn : length batches = 50%nat).
  { pose proof Hb as Hb'. vm_compute in Hb'. injection Hb' as <-. reflexivity. }
  rewrite Heq in Hrun.
  destruct (forLoop _ _ _ _) as [[acc | e |] w1] eqn:Hloop; try discriminate.
  injection Hrun as <- <-.
  destruct (forLoop_returned _ _ _ _ _ _ _ _ Hloop) as (visits & Hvis & _ & Herr).
  destruct (LoopRun_visits Hvis) as (Hidx & Hsent).
  exists batches. simpl in *. rewrite Herr. repeat split; trivial.
  - apply failures_in_order. rewrite Hidx. apply seq_StronglySorted.
  - apply Forall_forall. intros fl Hfl.
    apply in_map_iff in Hfl. destruct Hfl as (v & <- & Hv).
    apply filter_In in Hv. destruct Hv as [Hv _].
    rewrite Forall_forall in Hsent. specialize (Hsent v Hv).
    assert (Hi : (index v < 50)%nat).
    { rewrite <- Hn. apply nth_error_Some. congruence. }
    simpl. split; [lia|].
    replace (Z.to_nat (Z.of_nat (index v) + 1 - 1)) with (index v) by lia.
    exact Hsent.
Qed.

(** Against an endpoint whose every answer is a success with an array, each
    turn of the loop takes one request, and only the pause between batches
    is added. *)
Lemma forLoop_healthy (batches : list (list string)) (host : string) (port : Z) :
  (forall k req, exists body parsed items,
      network env k req = HttpResponse 200 body /\
      JSON_parse body = Some parsed /\
      JS.dataOf parsed = Some (JS.Arr items)) ->
  forall (k i0 : nat) (acc : Acc) (w : World),
    (i0 + k = length batches)%nat ->
    exists acc' w',
      forLoop (seq i0 k) (processBatch batches host port) acc w = (Returned acc', w') /\
      errors acc' = errors acc /\
      requests w' = (requests w + k)%nat /\
      length (trace w') = (length (trace w) + k + (k - 1))%nat.
Proof.
  intros Hok. induction k as [|k IH]; intros i0 acc w Hk.
  - exists acc, w. simpl. repeat split; lia.
  - destruct (nth_error batches i0) as [batch|] eqn:Hnth;
      [|apply nth_error_None in Hnth; lia].
    destruct (Hok (requests w) (issued batch host port w))
      as (body & parsed & items & Hres & Hparse & Hdata).
    assert (Hs : settle (network env (requests w) (issued batch host port w)) =
                 Resolved (Result.mk true (JS.Arr items) None 200)).
    { rewrite Hres. simpl. now rewrite Hparse, Hdata. }
    assert (Hrun : fetchWithRetry batch host port 0 w =
                   (Returned (Result.mk true (JS.Arr items) None 200),
                    fetched batch host port w)).
    { rewrite fetchWithRetry_stops; rewrite Hs; reflexivity. }
    simpl seq. simpl forLoop. unfold bind at 1.
    rewrite (processBatch_run batches host port i0 batch acc w _ _ Hnth Hrun).
    rewrite collect_spread by reflexivity. simpl JS.spread. cbv iota.
    rewrite spacing_run. simpl snd.
    destruct (IH (S i0) (mkAcc (aggregatedData acc ++ items) (errors acc))
                (if Z.of_nat i0 <? Z.of_nat (length batches) - 1
                 then slept CONFIG.RATE_LIMIT_MS (fetched batch host port w)
                 else fetched batch host port w))
      as (acc' & w' & Hloop & Herr & Hreq & Htr); [lia|].
    exists acc', w'. split; [exact Hloop|]. split; [exact Herr|].
    destruct (Z.ltb_spec (Z.of_nat i0) (Z.of_nat (length batches) - 1));
      simpl in Hreq, Htr; rewrite ?length_app in Htr; simpl in Htr; split; lia.
Qed.

(** X14. Against an endpoint whose every answer is a status 200 with an
    array as [data], the run returns a report without errors after exactly
    50 requests: nothing is retried, and the 49 pauses between batches are
    the only pauses. *)
Theorem aggregateDeviceData_against_healthy_endpoint (host : string) (port : Z)
    (w : World) :
  (forall k req, exists body parsed items,
      network env k req = HttpResponse 200 body /\
      JSON_parse body = Some parsed /\
      JS.dataOf parsed = Some (JS.Arr items)) ->
  exists report w',
    aggregateDeviceData host port w = (Returned report, w') /\
    Report.errors report = [] /\
    Report.failedBatches report = 0%nat /\
    requests w' = (requests w + 50)%nat /\
    length (trace w') = (length (trace w) + 99)%nat.
Proof.
  intros Hok.
  destruct (aggregateDeviceData_run host port w) as (batches & Hb & _ & Heq).
  assert (Hn : length batches = 50%nat).
  { vm_compute in Hb. injection Hb as <-. reflexivity. }
  destruct (forLoop_healthy batches host port Hok (length batches) 0 (mkAcc [] [])
              (ticked w) eq_refl) as (acc & w1 & Hloop & Herr & Hreq & Htr).
  rewrite Hloop in Heq. rewrite Heq. eexists. eexists. split; [reflexivity|].
  simpl in *. rewrite Herr. rewrite Hn in *. repeat split; trivial; simpl in *; lia.
Qed.

(** X15. The handler of [GET /aggregate] answers by the way the run ends:
    with the message of completion and the report when the run returns one,
    and with 500 "Aggregation failed" when the run throws.  Both happen.
    Against an endpoint that answers every request without success the run
    still returns, so the answer is the message of completion with a report
    of 0 fetched devices and 50 failed batches.  Against an endpoint that
    answers every request with a status 200 whose [data] is truthy but
    cannot be iterated, the run throws at the first batch, after one
    request, and the answer is the 500. *)
Theorem aggregateRoute_answers (PORT : Z) (w : World) :
  (forall result w',
      aggregateDeviceData "localhost" PORT w = (Returned result, w') ->
      aggregateRoute PORT w =
        (Returned (AggregateDone 200 "Data aggregation completed successfully" result), w')) /\
  (forall e w',
      aggregateDeviceData "localhost" PORT w = (Thrown e, w') ->
      aggregateRoute PORT w = (Returned (AggregateFailed 500 "Aggregation failed" e), w')) /\
  ((forall k req, Result.success (payload (settle (network env k req))) = false) ->
   exists result w',
     aggregateRoute PORT w =
       (Returned (AggregateDone 200 "Data aggregation completed successfully" result), w') /\
     Report.fetchedDevices result = 0%nat /\
     Report.failedBatches result = 50%nat) /\
  ((forall k req, exists body parsed d,
       network env k req = HttpResponse 200 body /\
       JSON_parse body = Some parsed /\
       JS.dataOf parsed = Some d /\
       JS.truthy d = true /\
       JS.spread d = None) ->
   exists details w',
     aggregateRoute PORT w = (Returned (AggregateFailed 500 "Aggregation failed" details), w') /\
     requests w' = (requests w + 1)%nat).
Proof.
  unfold aggregateRoute. split; [|split; [|split]].
  - intros result w' ->. reflexivity.
  - intros e w' ->. reflexivity.
  - intros Hdown.
    destruct (aggregateDeviceData_run "localhost" PORT w) as (batches & Hb & _ & Heq).
    assert (Hn : length batches = 50%nat).
    { vm_compute in Hb. injection Hb as <-. reflexivity. }
    destruct (forLoop_all_failed batches "localhost" PORT Hdown
                (seq 0 (length batches)) (mkAcc [] []) (ticked w))
      as (acc & w1 & Hloop & Hdata & Herr).
    { apply Forall_forall. intros i Hi. apply in_seq in Hi. lia. }
    rewrite Hloop in Heq. rewrite Heq.
    eexists. eexists. split; [reflexivity|]. simpl in *.
    rewrite Hdata, Herr, length_seq, Hn. split; reflexivity.
  - intros Hodd.
    destruct (aggregateDeviceData_run "localhost" PORT w) as (batches & Hb & _ & Heq).
    assert (Hn : length batches = 50%nat).
    { pose proof Hb as Hb'. vm_compute in Hb'. injection Hb' as <-. reflexivity. }
    destruct (nth_error batches 0) as [batch|] eqn:Hnth;
      [|apply nth_error_None in Hnth; lia].
    destruct (Hodd (requests (ticked w)) (issued batch "localhost" PORT (ticked w)))
      as (body & parsed & d & Hres & Hparse & Hdata & Htruthy & Hspread).
    assert (Hs : settle (network env (requests (ticked w))
                           (issued batch "localhost" PORT (ticked w))) =
                 Resolved (Result.mk true d None 200)).
    { rewrite Hres. simpl. now rewrite Hparse, Hdata. }
    assert (Hrun : fetchWithRetry batch "localhost" PORT 0 (ticked w) =
                   (Returned (Result.mk true d None 200),
                    fetched batch "localhost" PORT (ticked w))).
    { rewrite fetchWithRetry_stops; rewrite Hs; reflexivity. }
    assert (Hloop : forLoop (seq 0 (length batches)) (processBatch batches "localhost" PORT)
                      (mkAcc [] []) (ticked w) =
                    (Thrown "result.data is not iterable",
                     fetched batch "localhost" PORT (ticked w))).
    { rewrite Hn. simpl seq. simpl forLoop. unfold bind at 1.
      rewrite (processBatch_run batches "localhost" PORT 0 batch _ _ _ _ Hnth Hrun).
      rewrite collect_spread by (unfold failed; simpl; now rewrite Htruthy).
      simpl Result.data. rewrite Hspread. reflexivity. }
    rewrite Hloop in Heq. rewrite Heq.
    eexists. eexists. split; [reflexivity|]. simpl. lia.
Qed.

Lemma distinctb_sound (l : list string) : distinctb l = true -> NoDup l.
Proof.
  induction l as [|x l IH]; intros H; constructor; simpl in H;
    apply andb_true_iff in H; destruct H as [Hx Hl].
  - intros Hin. apply negb_true_iff in Hx.
    assert (existsb (String.eqb x) l = true); [|congruence].
    apply existsb_exists. exists x. split; trivial. apply String.eqb_refl.
  - now apply IH.
Qed.

(** X16. [generateSerialNumbers] returns 500 identifiers, no two of them
    equal, each of six characters starting with "SN-", from "SN-000" to
    "SN-499". *)
Theorem generateSerialNumbers_distinct :
  length generateSerialNumbers = 500%nat /\
  NoDup generateSerialNumbers /\
  Forall (fun id => String.length id = 6%nat /\ String.prefix "SN-" id = true)
    generateSerialNumbers /\
  nth_error generateSerialNumbers 0 = Some "SN-000" /\
  nth_error generateSerialNumbers 499 = Some "SN-499".
Proof.
  split; [reflexivity|]. split; [apply distinctb_sound; vm_compute; reflexivity|].
  split; [|split; vm_compute; reflexivity].
  apply Forall_forall. intros id Hid.
  assert (Hall : forallb (fun id => (String.length id =? 6)%nat && String.prefix "SN-" id)
                   generateSerialNumbers = true) by (vm_compute; reflexivity).
  rewrite forallb_forall in Hall. apply Hall in Hid.
  apply andb_true_iff in Hid. destruct Hid as [Hlen Hpre].
  split; [now apply Nat.eqb_eq | exact Hpre].
Qed.

(* ------------------------------------------------------------------ *)
(** ** The aggregator against the mock endpoint *)

Lemma toString_nonempty (z : Z) : JS.toString z <> "".
Proof.
  unfold JS.toString. destruct (Z.to_int z) as [d | d]; simpl; [|discriminate].
  destruct d; discriminate.
Qed.

Lemma securityCheck_requestAt (batch : list string) (host : string) (port : Z) (c : nat) :
  (forall s, md5_hex s <> "") ->
  securityCheck (received (requestAt batch host port c)) = Next.
Proof.
  intros Hdigest. unfold securityCheck, received, requestAt. simpl.
  destruct (String.eqb_spec (JS.toString (clock env c)) "") as [He | _];
    [now apply toString_nonempty in He|].
  destruct (String.eqb_spec (generateSignature (JS.toString (clock env c))) "")
    as [He | _]; [now apply Hdigest in He|].
  simpl.
  change (expectedSig "/device/real/query" (JS.toString (clock env c)))
    with (generateSignature (JS.toString (clock env c))).
  now rewrite String.eqb_refl.
Qed.

Lemma Forall_joinWith {A : Type} (P : A -> Prop) (sep : A) :
  P sep ->
  forall segments, Forall (Forall P) segments -> Forall P (joinWith sep segments).
Proof.
  intros Hsep. induction segments as [|seg segments IH]; intros Hall; [constructor|].
  inversion Hall as [|? ? Hseg Hrest]; subst.
  destruct segments as [|seg' segments]; [exact Hseg|].
  rewrite joinWith_cons by discriminate.
  apply Forall_app. split; [exact Hseg|]. constructor; [exact Hsep | now apply IH].
Qed.

Lemma Dispatched_sentFor (batches : list (list string)) (batch : list string)
    (host : string) (port : Z) (n : nat) (w w' : World) :
  In batch batches ->
  Dispatched batch host port n w w' ->
  exists evs, trace w' = trace w ++ evs /\ Forall (sentFor batches host port) evs.
Proof.
  intros Hin (_ & _ & Htr). eexists. split; [exact Htr|].
  apply Forall_joinWith; [now left|].
  apply Forall_forall. intros seg Hseg.
  apply in_map_iff in Hseg. destruct Hseg as (c & <- & _).
  constructor; [|constructor]. now exists batch, c.
Qed.

(** Whatever way the loop ends, what it added to the trace are requests
    built by [requestAt] for the batches, and pauses. *)
Lemma forLoop_sentFor (batches : list (list string)) (host : string) (port : Z) :
  forall (indices : list nat) (acc : Acc) (w : World),
    exists evs,
      trace (snd (forLoop indices (processBatch batches host port) acc w)) =
        trace w ++ evs /\
      Forall (sentFor batches host port) evs.
Proof.
  induction indices as [|i indices IH]; intros acc w.
  - exists []. simpl. now rewrite app_nil_r.
  - simpl. unfold bind at 1.
    destruct (nth_error batches i) as [batch|] eqn:Hnth.
    2: { unfold processBatch. rewrite Hnth. exists []. simpl. now rewrite app_nil_r. }
    destruct (fetchWithRetry_requests batch host port CONFIG.MAX_RETRIES 0 w eq_refl)
      as (result & w1 & n & Hrun & _ & Hd).
    destruct (Dispatched_sentFor batches batch host port n w w1
                (nth_error_In _ _ Hnth) Hd) as (evs1 & Htr1 & Hall1).
    rewrite (processBatch_run batches host port i batch acc w w1 result Hnth Hrun).
    assert (Hgoes : forall acc1,
      exists evs,
        trace (snd (forLoop indices (processBatch batches host port) acc1
                      (snd (spacing batches i w1)))) = trace w ++ evs /\
        Forall (sentFor batches host port) evs).
    { intros acc1.
      destruct (IH acc1 (snd (spacing batches i w1))) as (evs2 & Htr2 & Hall2).
      rewrite spacing_run in *. simpl snd in *.
      destruct (Z.of_nat i <? Z.of_nat (length batches) - 1).
      - exists (evs1 ++ ESleep CONFIG.RATE_LIMIT_MS :: evs2).
        rewrite Htr2. simpl. rewrite Htr1, <- !app_assoc. split; [reflexivity|].
        apply Forall_app. split; trivial. constructor; trivial. now right.
      - exists (evs1 ++ evs2). rewrite Htr2, Htr1, <- app_assoc. split; [reflexivity|].
        apply Forall_app. now split. }
    destruct (failed result) eqn:Hf.
    + rewrite collect_failed by exact Hf. apply Hgoes.
    + rewrite collect_spread by exact Hf.
      destruct (JS.spread (Result.data result)); [apply Hgoes|].
      exists evs1. simpl. now split.
Qed.

(** X17. Every request that a run of [aggregateDeviceData] sends is one
    the mock endpoint serves: provided the digest is never the empty
    string, the request passes [securityCheck], carries at most 10 serial
    numbers, and, arriving outside the rate limiter's window, is answered
    by [POST /device/real/query] with the status 200 and one record per
    serial number of the request, in order.  The endpoint never answers the
    aggregator with 400 or 401. *)
Theorem mock_endpoint_serves_the_aggregator (p : Platform) (host : string)
    (port : Z) (w : World) :
  (forall s, md5_hex s <> "") ->
  exists evs,
    trace (snd (aggregateDeviceData host port w)) = trace w ++ evs /\
    forall r, In (ERequest r) evs ->
      securityCheck (received r) = Next /\
      (length (sn_list r) <= 10)%nat /\
      forall now s, 950 <= now - lastRequestTime s ->
        exists results,
          deviceQuery p now (received r) (bodyOf r) s =
            (Returned (mkReply 200 (JS.Obj [("data", JS.Arr results)])),
             mkServer now
               (mkDrawn (randoms (drawn s) + 2 * length (sn_list r))
                        (dates (drawn s) + length (sn_list r)))) /\
          Forall2 recordFor (map JS.Str (sn_list r)) results.
Proof.
  intros Hdigest.
  destruct (aggregateDeviceData_run host port w) as (batches & Hb & _ & Heq).
  destruct (forLoop_sentFor batches host port (seq 0 (length batches)) (mkAcc [] [])
              (ticked w)) as (evs & Htr & Hall).
  assert (Hsize : forallb (fun b => (length b <=? 10)%nat) batches = true).
  { vm_compute in Hb. injection Hb as <-. vm_compute. reflexivity. }
  exists evs. split.
  - rewrite Heq. destruct (forLoop _ _ _ _) as [[acc | e |] w1]; exact Htr.
  - intros r Hr. rewrite Forall_forall in Hall.
    destruct (Hall _ Hr) as (batch & c & Hin & ->).
    rewrite forallb_forall in Hsize. apply Hsize, Nat.leb_le in Hin.
    split; [now apply securityCheck_requestAt|]. split; [exact Hin|].
    intros now s Hgap. unfold deviceQuery.
    destruct (rateLimiter_cases now (lastRequestTime s)) as [[_ ->] | [Hlt _]]; [|lia].
    rewrite securityCheck_requestAt by exact Hdigest.
    unfold queryHandler, bodyOf, MAX_BATCH_SIZE. simpl JS.prop. cbv iota.
    simpl sn_list in *. rewrite length_map.
    destruct (Z.gtb_spec (Z.of_nat (length batch)) 10) as [Hgt | _]; [lia|].
    destruct (mapRecords_spec p (map JS.Str batch) (drawn s)) as [Hrec Hd].
    destruct (mapRecords p (map JS.Str batch) (drawn s)) as [results d'].
    simpl in *. subst d'. rewrite length_map. exists results. split; trivial.
Qed.

(** X18. One call of [fetchDeviceData] sends one request, built from one
    reading of the clock, and settles by the answer alone: it resolves with
    [success] true exactly for a status 200 whose body parses to a value
    with a readable [data]; it rejects exactly for a failed connection or a
    status 200 whose body does not parse, or parses to [null]; and any
    other status resolves with [success] false, the body as error and that
    status. *)
Theorem fetchDeviceData_outcomes (snList : list string) (host : string) (port : Z)
    (w : World) :
  exists settled,
    fetchDeviceData snList host port w = (Returned settled, fetched snList host port w) /\
    settled = settle (network env (requests w) (issued snList host port w)) /\
    ((exists result, settled = Resolved result /\ Result.success result = true) <->
     (exists body parsed d,
         network env (requests w) (issued snList host port w) = HttpResponse 200 body /\
         JSON_parse body = Some parsed /\ JS.dataOf parsed = Some d)) /\
    ((exists err, settled = Rejected err) <->
     ((exists message,
          network env (requests w) (issued snList host port w) = NetworkError message) \/
      (exists body,
          network env (requests w) (issued snList host port w) = HttpResponse 200 body /\
          (JSON_parse body = None \/ JSON_parse body = Some JS.Null \/
           JSON_parse body = Some JS.Undefined)))) /\
    (forall st body,
        network env (requests w) (issued snList host port w) = HttpResponse st body ->
        st <> 200 ->
        settled = Resolved (Result.mk false JS.Undefined (Some body) st)).
Proof.
  eexists. split; [apply fetchDeviceData_run|]. split; [reflexivity|].
  destruct (network env (requests w) (issued snList host port w)) as [message | st body];
    simpl; [|destruct (Z.eqb_spec st 200) as [-> | Hne];
             [destruct (JSON_parse body) as [parsed|] eqn:Hparse;
              [destruct parsed; simpl|]|]].
  all: repeat split; intros;
    repeat match goal with
      | H : exists _, _ |- _ => destruct H
      | H : _ /\ _ |- _ => destruct H
      | H : _ \/ _ |- _ => destruct H
      end;
    try congruence; eauto 10.
  all: repeat match goal with
         | H : HttpResponse _ _ = HttpResponse _ _ |- _ => inversion H; clear H; subst
         | H : Resolved _ = Resolved _ |- _ => inversion H; clear H; subst
         | H : JSON_parse ?b = _, H' : JSON_parse ?b = _ |- _ =>
             rewrite H in H'; inversion H'; clear H'; subst
         end;
       simpl in *; try congruence.
  all: eexists; eexists; eexists; repeat split; [eassumption | reflexivity].
Qed.

End EnergyGrid.
(* ================================================================== *)
(** * The Signer with the digest of the platform *)

(** The test suite of RFC 1321, section A.5. *)
Example md5_hex_test_suite :
  MD5.md5_hex "" = "d41d8cd98f00b204e9800998ecf8427e" /\
  MD5.md5_hex "a" = "0cc175b9c0f1b6a831c399e269772661" /\
  MD5.md5_hex "abc" = "900150983cd24fb0d6963f7d28e17f72" /\
  MD5.md5_hex "message digest" = "f96b697d7cb7938d525a2f31aaf161d0" /\
  MD5.md5_hex "abcdefghijklmnopqrstuvwxyz" = "c3fcd3d76192e4007dfb496cca67e13b" /\
  MD5.md5_hex "ABCDEFGHIJKLMNOPQRSTUVWXYZabcdefghijklmnopqrstuvwxyz0123456789" =
    "d174ab98d277d9f5a5611c2c9f419d9f" /\
  MD5.md5_hex
    "12345678901234567890123456789012345678901234567890123456789012345678901234567890" =
    "57edf4a22be3c955ac49da2e2107b67a".
Proof. vm_compute. repeat split. Qed.

(** The token of the timestamp 1700000000000. *)
Example generateSignature_at_1700000000000 :
  generateSignature MD5.md5_hex "1700000000000" = "192e6a35c45c5f24d5103c72c4ba77e9".
Proof. vm_compute. reflexivity. Qed.









(* ================================================================== *)
(** * Concrete runs *)

(** Two answers with status 429 and then a success: three requests with
    the retry delay between them, and the records are returned. *)
Example fetchWithRetry_recovers :
  let run := fetchWithRetry Sample.digest Sample.parse Sample.recovering
               ["SN-000"] "localhost" 3000 0 Sample.start in
  fst run = Returned (Result.mk true (JS.Arr [JS.Bool true]) None 200) /\
  requests (snd run) = 3%nat /\
  map (fun e => match e with ERequest r => sn_list r | ESleep _ => [] end)
      (trace (snd run)) = [["SN-000"]; []; ["SN-000"]; []; ["SN-000"]] /\
  map (fun e => match e with ERequest _ => 0 | ESleep ms => ms end)
      (trace (snd run)) = [0; 2000; 0; 2000; 0].
Proof. vm_compute. repeat split. Qed.

(** A connection that always fails: four requests, then the rejection is
    returned with the status 0. *)
Example fetchWithRetry_unreachable :
  let run := fetchWithRetry Sample.digest Sample.parse Sample.unreachable
               ["SN-000"] "localhost" 3000 0 Sample.start in
  fst run = Returned (Result.mk false JS.Undefined (Some "connect ECONNREFUSED") 0) /\
  requests (snd run) = 4%nat.
Proof. vm_compute. repeat split. Qed.

(** A full run against an endpoint that answers every batch with one
    record: 50 requests and 49 pauses. *)
Example aggregateDeviceData_healthy :
  let run := aggregateDeviceData Sample.digest Sample.parse Sample.healthy
               "localhost" 3000 Sample.start in
  (exists report,
      fst run = Returned report /\
      Report.fetchedDevices report = 50%nat /\ Report.failedBatches report = 0%nat) /\
  requests (snd run) = 50%nat /\
  length (trace (snd run)) = 99%nat.
Proof. vm_compute. split; [eexists|]; repeat split. Qed.

(** A status 200 whose body has no [data]: the driver counts the batch as
    failed, with no error detail. *)
Example processBatch_without_data :
  fst (processBatch Sample.digest Sample.parse Sample.empty
         [["SN-000"]] "localhost" 3000 0 (mkAcc [] []) Sample.start) =
  Returned (mkAcc [] [Failure.mk 1 ["SN-000"] None 200]).
Proof. vm_compute. reflexivity. Qed.

(** A status 200 whose [data] is a number: the spread throws, and the run
    ends there, after one request. *)
Example aggregateDeviceData_throws :
  let run := aggregateDeviceData Sample.digest Sample.parse Sample.odd
               "localhost" 3000 Sample.start in
  fst run = Thrown "result.data is not iterable" /\ requests (snd run) = 1%nat.
Proof. vm_compute. repeat split. Qed.

(* ================================================================== *)
(** * The theorems at concrete inputs *)

(** C1 at five elements in batches of two. *)
Lemma createBatches_partition_witness :
  exists batches,
    createBatches 6 ["a"; "b"; "c"; "d"; "e"] 2 = Some batches /\
    concat batches = ["a"; "b"; "c"; "d"; "e"] /\
    (forall k b, nth_error batches k = Some b -> (S k < length batches)%nat ->
                 Z.of_nat (length b) = 2) /\
    (forall b, nth_error batches (length batches - 1) = Some b ->
               Z.of_nat (length b) = lastBatchLength 5 2) /\
    Forall (fun b => b <> []) batches.
Proof.
  apply (createBatches_partition ["a"; "b"; "c"; "d"; "e"] 2 6); [lia | simpl; lia].
Defined.


(** C2 against an endpoint that answers 429 to everything. *)
Lemma fetchWithRetry_attempt_bound_witness :
  exists body req w',
    fetchWithRetry Sample.digest Sample.parse Sample.rateLimited
      ["SN-000"] "localhost" 3000 0 Sample.start =
      (Returned (Result.mk false JS.Undefined (Some body) 429), w') /\
    requests w' = (requests Sample.start + S CONFIG.MAX_RETRIES)%nat /\
    last (trace w') (ESleep 0) = ERequest req /\
    network Sample.rateLimited (requests Sample.start + CONFIG.MAX_RETRIES) req =
      HttpResponse 429 body.
Proof.
  apply (proj2 (proj2 (fetchWithRetry_attempt_bound Sample.digest Sample.parse
                         Sample.rateLimited ["SN-000"] "localhost" 3000 Sample.start))).
  intros k req. exists "Too Many Requests". reflexivity.
Defined.

(** C3 against an endpoint that answers 200 with a body that is not JSON:
    four requests. *)
Lemma fetchWithRetry_parse_failure_retried_witness :
  exists w',
    fetchWithRetry Sample.digest Sample.parse Sample.garbled
      ["SN-000"] "localhost" 3000 0 Sample.start =
      (Returned (Result.mk false JS.Undefined (Some "Failed to parse response") 200), w') /\
    requests w' = (requests Sample.start + 4)%nat.
Proof.
  apply (fetchWithRetry_parse_failure_retried Sample.digest Sample.parse
           Sample.garbled ["SN-000"] "localhost" 3000 Sample.start).
  intros k req. exists "<html>". split; reflexivity.
Defined.

(** C4 for the second batch of a run against an endpoint that answers 500
    to everything: the first batch has failed and left its descriptor, the
    second fails too, and the third is dispatched after the pause. *)
Lemma failed_batch_recorded_and_run_goes_on_witness :
  exists seg evs front,
    Dispatch (firstn 10 (skipn 20 generateSerialNumbers)) seg /\
    trace (snd (aggregateDeviceData Sample.digest Sample.parse Sample.serverError
                  "localhost" 3000 Sample.start)) =
      front ++ ESleep CONFIG.RATE_LIMIT_MS :: seg ++ evs /\
    length front = 3%nat.
Proof.
  set (batches := match createBatches (S (length generateSerialNumbers))
                          generateSerialNumbers CONFIG.BATCH_SIZE with
                  | Some batches => batches
                  | None => []
                  end).
  set (body := processBatch Sample.digest Sample.parse Sample.serverError
                 batches "localhost" 3000).
  set (before := forLoop (seq 0 1) body (mkAcc [] []) (ticked Sample.start)).
  set (batch := firstn 10 (skipn 10 generateSerialNumbers)).
  set (w1 := snd (fetchWithRetry Sample.digest Sample.parse Sample.serverError
                    batch "localhost" 3000 0 (snd before))).
  destruct (failed_batch_recorded_and_run_goes_on Sample.digest Sample.parse
              Sample.serverError "localhost" 3000 Sample.start batches 1 batch
              (mkAcc [] [Failure.mk 1 (firstn 10 generateSerialNumbers)
                           (Some "Internal Server Error") 500])
              (snd before) w1
              (Result.mk false JS.Undefined (Some "Internal Server Error") 500))
    as (w2 & _ & Hnext & _).
  - vm_compute. reflexivity.
  - vm_compute. reflexivity.
  - vm_compute. reflexivity.
  - vm_compute. reflexivity.
  - left. reflexivity.
  - destruct (Hnext (firstn 10 (skipn 20 generateSerialNumbers)))
      as (seg & evs & Hseg & Htrace); [vm_compute; reflexivity|].
    exists seg, evs, (trace w1). split; [exact Hseg|]. split; [exact Htrace|].
    vm_compute. reflexivity.
Defined.


(** C10 against an endpoint that answers 500 to everything. *)
Lemma report_success_always_true_witness :
  exists report w',
    aggregateDeviceData Sample.digest Sample.parse Sample.serverError "localhost" 3000
      Sample.start = (Returned report, w') /\
    Report.success report = true /\
    Report.fetchedDevices report = 0%nat /\
    Report.data report = [] /\
    Report.failedBatches report = 50%nat.
Proof.
  apply (proj2 (report_success_always_true Sample.digest Sample.parse
                  Sample.serverError "localhost" 3000 Sample.start)).
  intros k req. reflexivity.
Defined.

(* ================================================================== *)
(** * The further theorems at concrete inputs *)

(** X3 for three arrivals a second apart. *)
Lemma rateLimiter_admits_spaced_requests_witness :
  fst (rateLimited [1700000000000; 1700000001000; 1700000002000] 0) =
    [Next; Next; Next] /\
  snd (rateLimited [1700000000000; 1700000001000; 1700000002000] 0) = 1700000002000.
Proof.
  apply (rateLimiter_admits_spaced_requests
           [1700000000000; 1700000001000; 1700000002000] 0).
  simpl. lia.
Defined.

(** X4 for a body with two serial numbers. *)
Lemma queryHandler_replies_witness :
  exists results,
    queryHandler Sample.platform
      (JS.Obj [("sn_list", JS.Arr [JS.Str "SN-000"; JS.Str "SN-001"])]) (mkDrawn 0 0) =
      (Returned (mkReply 200 (JS.Obj [("data", JS.Arr results)])), mkDrawn 4 2) /\
    Forall2 recordFor [JS.Str "SN-000"; JS.Str "SN-001"] results.
Proof.
  apply (proj1 (queryHandler_replies Sample.platform
                  (JS.Obj [("sn_list", JS.Arr [JS.Str "SN-000"; JS.Str "SN-001"])])
                  (mkDrawn 0 0)) [JS.Str "SN-000"; JS.Str "SN-001"]);
    [reflexivity | simpl; lia].
Defined.

(** X5 for a request with the body [{}], half a second after the last one
    let through. *)
Lemma postDeviceQuery_parser_then_limiter_witness :
  postDeviceQuery Sample.digest Sample.platform 1700000000500
    (mkIncoming [] "/device/real/query") (BodyParsed (JS.Obj []))
    (mkServer 1700000000000 (mkDrawn 0 0)) =
  (Replied (errorReply 429 "Too Many Requests. Limit: 1 req/sec."),
   mkServer 1700000000000 (mkDrawn 0 0)).
Proof.
  apply (proj1 (proj2 (postDeviceQuery_parser_then_limiter Sample.digest Sample.platform
                         1700000000500 (mkIncoming [] "/device/real/query")
                         (mkServer 1700000000000 (mkDrawn 0 0))))).
  simpl. lia.
Defined.

(** X6 at five elements in batches of two. *)
Lemma createBatches_count_and_content_witness :
  exists batches,
    createBatches 6 ["a"; "b"; "c"; "d"; "e"] 2 = Some batches /\
    Z.of_nat (length batches) = (5 + 2 - 1) / 2 /\
    forall k, (k < length batches)%nat ->
      nth_error batches k =
      Some (firstn (Z.to_nat 2) (skipn (k * Z.to_nat 2) ["a"; "b"; "c"; "d"; "e"])).
Proof.
  apply (createBatches_count_and_content ["a"; "b"; "c"; "d"; "e"] 2 6);
    [lia | simpl; lia].
Defined.

(** X7 against the endpoint that answers every batch with one record. *)
Lemma fetchWithRetry_success_once_witness :
  fetchWithRetry Sample.digest Sample.parse Sample.healthy ["SN-000"] "localhost" 3000 2
    Sample.start =
    (Returned (Result.mk true (JS.Arr [JS.Bool true]) None 200),
     fetched Sample.digest Sample.healthy ["SN-000"] "localhost" 3000 Sample.start) /\
  requests (fetched Sample.digest Sample.healthy ["SN-000"] "localhost" 3000 Sample.start) =
    S (requests Sample.start) /\
  trace (fetched Sample.digest Sample.healthy ["SN-000"] "localhost" 3000 Sample.start) =
    trace Sample.start ++
    [ERequest (issued Sample.digest Sample.healthy ["SN-000"] "localhost" 3000 Sample.start)].
Proof.
  apply (fetchWithRetry_success_once Sample.digest Sample.parse Sample.healthy
           ["SN-000"] "localhost" 3000 2 Sample.start Sample.okBody
           (JS.Obj [("data", JS.Arr [JS.Bool true])]) (JS.Arr [JS.Bool true]));
    reflexivity.
Defined.

(** X8 against a connection that always fails. *)
Lemma fetchWithRetry_network_errors_witness :
  exists message req w',
    fetchWithRetry Sample.digest Sample.parse Sample.unreachable
      ["SN-000"] "localhost" 3000 0 Sample.start =
      (Returned (Result.mk false JS.Undefined (Some message) 0), w') /\
    requests w' = (requests Sample.start + 4)%nat /\
    last (trace w') (ESleep 0) = ERequest req /\
    network Sample.unreachable (requests Sample.start + 3) req = NetworkError message.
Proof.
  apply (fetchWithRetry_network_errors Sample.digest Sample.parse Sample.unreachable
           ["SN-000"] "localhost" 3000 Sample.start).
  intros k req. exists "connect ECONNREFUSED". reflexivity.
Defined.

(** X10 against two rate limits followed by a success. *)
Lemma fetchWithRetry_recovers_after_transient_failures_witness :
  exists w',
    fetchWithRetry Sample.digest Sample.parse Sample.recovering
      ["SN-000"] "localhost" 3000 0 Sample.start =
      (Returned (Result.mk true (JS.Arr [JS.Bool true]) None 200), w') /\
    requests w' = (requests Sample.start + 2 + 1)%nat.
Proof.
  apply (fetchWithRetry_recovers_after_transient_failures Sample.digest Sample.parse
           Sample.recovering ["SN-000"] "localhost" 3000 Sample.start 2 Sample.okBody
           (JS.Obj [("data", JS.Arr [JS.Bool true])]) (JS.Arr [JS.Bool true])).
  - unfold CONFIG.MAX_RETRIES. lia.
  - intros k req Hk. simpl in *.
    destruct k as [|[|k]]; [reflexivity | reflexivity | lia].
  - intros req. reflexivity.
  - reflexivity.
  - reflexivity.
Defined.

(** X11 for the run against the endpoint that always succeeds. *)
Lemma aggregateDeviceData_accounting_witness :
  exists report w',
    aggregateDeviceData Sample.digest Sample.parse Sample.healthy "localhost" 3000
      Sample.start = (Returned report, w') /\
    (requests Sample.start + 50 <= requests w' <= requests Sample.start + 200)%nat /\
    clockReads w' = (clockReads Sample.start + 2 + (requests w' - requests Sample.start))%nat /\
    (Report.failedBatches report <= 50)%nat.
Proof.
  eexists. eexists. split; [vm_compute; reflexivity|].
  eapply (aggregateDeviceData_accounting Sample.digest Sample.parse Sample.healthy
            "localhost" 3000 Sample.start).
  vm_compute. reflexivity.
Defined.

(** X12 against the endpoint that answers 500 to everything. *)
Lemma aggregateDeviceData_returns_if_iterable_witness :
  exists report w',
    aggregateDeviceData Sample.digest Sample.parse Sample.serverError "localhost" 3000
      Sample.start = (Returned report, w') /\
    (requests Sample.start + 50 <= requests w' <= requests Sample.start + 200)%nat.
Proof.
  apply (aggregateDeviceData_returns_if_iterable Sample.digest Sample.parse
           Sample.serverError "localhost" 3000 Sample.start).
  intros k req. left. reflexivity.
Defined.

(** X13 for the run in which every batch fails. *)
Lemma report_errors_in_batch_order_witness :
  exists report w',
    aggregateDeviceData Sample.digest Sample.parse Sample.serverError "localhost" 3000
      Sample.start = (Returned report, w') /\
    exists batches,
      createBatches (S (length generateSerialNumbers)) generateSerialNumbers
        CONFIG.BATCH_SIZE = Some batches /\
      StronglySorted Z.lt (map Failure.batch (Report.errors report)) /\
      Forall (fun f =>
                1 <= Failure.batch f <= 50 /\
                nth_error batches (Z.to_nat (Failure.batch f - 1)) =
                  Some (Failure.serialNumbers f))
        (Report.errors report).
Proof.
  eexists. eexists. split; [vm_compute; reflexivity|].
  eapply (report_errors_in_batch_order Sample.digest Sample.parse Sample.serverError
            "localhost" 3000 Sample.start).
  vm_compute. reflexivity.
Defined.

(** X14 against the endpoint that answers every batch with one record. *)
Lemma aggregateDeviceData_against_healthy_endpoint_witness :
  exists report w',
    aggregateDeviceData Sample.digest Sample.parse Sample.healthy "localhost" 3000
      Sample.start = (Returned report, w') /\
    Report.errors report = [] /\
    Report.failedBatches report = 0%nat /\
    requests w' = (requests Sample.start + 50)%nat /\
    length (trace w') = (length (trace Sample.start) + 99)%nat.
Proof.
  apply (aggregateDeviceData_against_healthy_endpoint Sample.digest Sample.parse
           Sample.healthy "localhost" 3000 Sample.start).
  intros k req. exists Sample.okBody.
  exists (JS.Obj [("data", JS.Arr [JS.Bool true])]), [JS.Bool true].
  repeat split.
Defined.

(** X15 against the endpoint whose [data] is the number 7. *)
Lemma aggregateRoute_answers_witness :
  exists details w',
    aggregateRoute Sample.digest Sample.parse Sample.odd 3000 Sample.start =
      (Returned (AggregateFailed 500 "Aggregation failed" details), w') /\
    requests w' = (requests Sample.start + 1)%nat.
Proof.
  apply (proj2 (proj2 (proj2 (aggregateRoute_answers Sample.digest Sample.parse
                                Sample.odd 3000 Sample.start)))).
  intros k req. exists Sample.oddBody, (JS.Obj [("data", JS.Num 7)]), (JS.Num 7).
  repeat split.
Defined.

(** X17 for the run against the endpoint that always succeeds, with the
    sample digest and the sample platform of the server. *)
Lemma mock_endpoint_serves_the_aggregator_witness :
  exists evs,
    trace (snd (aggregateDeviceData Sample.digest Sample.parse Sample.healthy
                  "localhost" 3000 Sample.start)) = trace Sample.start ++ evs /\
    forall r, In (ERequest r) evs ->
      securityCheck Sample.digest (received r) = Next /\
      (length (sn_list r) <= 10)%nat /\
      forall now s, 950 <= now - lastRequestTime s ->
        exists results,
          deviceQuery Sample.digest Sample.platform now (received r) (bodyOf r) s =
            (Returned (mkReply 200 (JS.Obj [("data", JS.Arr results)])),
             mkServer now
               (mkDrawn (randoms (drawn s) + 2 * length (sn_list r))
                        (dates (drawn s) + length (sn_list r)))) /\
          Forall2 recordFor (map JS.Str (sn_list r)) results.
Proof.
  apply (mock_endpoint_serves_the_aggregator Sample.digest Sample.parse Sample.healthy
           Sample.platform "localhost" 3000 Sample.start).
  intros s. discriminate.
Defined.

(** X19 against the endpoint that answers 500 to everything. *)
Lemma fetchWithRetry_other_failure_once_witness :
  fetchWithRetry Sample.digest Sample.parse Sample.serverError ["SN-000"] "localhost" 3000 0
    Sample.start =
  (Returned (Result.mk false JS.Undefined (Some "Internal Server Error") 500),
   fetched Sample.digest Sample.serverError ["SN-000"] "localhost" 3000 Sample.start).
Proof.
  apply (fetchWithRetry_other_failure_once Sample.digest Sample.parse Sample.serverError
           ["SN-000"] "localhost" 3000 0 Sample.start 500 "Internal Server Error");
    [reflexivity | discriminate | discriminate].
Defined.
